(** * Low Cost Groceries: the client-side workflow controller of [app.js]

    A shallow embedding of the browser script [src/app.js]: the cart, the
    pending AI suggestions, the cart submission, the result polling and the
    results view, followed by the properties of the specification that
    concern them.

    Conventions of the embedding.
    - A JavaScript string is a [string], one character per UTF-16 code
      unit; only code units below 256 are representable.
    - Integer-valued JavaScript numbers (identifiers, counters, percentages,
      interval handles) are [Z]; prices are [Q], which covers every finite
      IEEE double and orders them as [<] and [===] do.
    - An [async] function is split at each [await] into the synchronous
      part that runs up to the request ([..._start]) and the continuation
      that runs when the response arrives ([..._resume]).
    - The global [state] object, the module variable [pollCount], the DOM
      properties the handlers read back or the specification speaks of
      (the two inputs, the progress, the status text, the results view, the
      notices shown) and the browser's interval table and request log are
      the fields of one record, [State], threaded through every handler.
      The cart list and the pending cards are redrawn from [state] alone
      ([renderCart], [renderPendingSuggestions]) and are not stored; focus,
      scrolling and logging are left out.  Markup built from templates is
      represented by a value carrying the interpolated data. *)

From Stdlib Require Import ZArith QArith List String Ascii Bool Lia.
From Stdlib Require Import Sorting.Sorted Sorting.Permutation.
From stdpp Require Import gmap strings list fin_maps.

Import ListNotations.
Local Open Scope string_scope.
Local Open Scope list_scope.
Local Open Scope Z_scope.

(** ** Configuration ([CONFIG]) *)

Module CONFIG.
Definition API_BASE_URL : string := "".
Definition DEBOUNCE_DELAY : Z := 1200.
Definition POLL_INTERVAL : Z := 2000.
Definition MAX_ITEMS : nat := 10.
Definition MIN_ZIP_LENGTH : nat := 5.
End CONFIG.

(** ** Strings *)

(** White space removed by [String.prototype.trim], restricted to code units
    below 256: TAB, LF, VT, FF, CR, SPACE and NO-BREAK SPACE. *)
Definition is_js_space (c : ascii) : bool :=
  let n := N_of_ascii c in
  ((9 <=? n) && (n <=? 13))%N || (n =? 32)%N || (n =? 160)%N.

Fixpoint trimStart (s : string) : string :=
  match s with
  | EmptyString => EmptyString
  | String c s' => if is_js_space c then trimStart s' else s
  end.

Fixpoint trimEnd (s : string) : string :=
  match s with
  | EmptyString => EmptyString
  | String c s' =>
      match trimEnd s' with
      | EmptyString => if is_js_space c then EmptyString else String c EmptyString
      | t => String c t
      end
  end.

Definition trim (s : string) : string := trimEnd (trimStart s).

(** ** Data model *)

(** [{ name }], an entry of [state.cart]. *)
Record CartItem := mkCartItem { name : string }.

(** The body of a successful [/api/clarify] response:
    [{ suggested: {name}, alternatives: [{name}, ...] }]; a missing
    [suggested] is [None], a missing [alternatives] the empty list. *)
Record SuggestionData := mkSuggestionData {
  suggested : option string;
  alternatives : list string
}.

(** The [status] of a pending item: ['loading'], ['complete'], ['error']. *)
Inductive PendingStatus := Loading | Complete | Error.

(** An entry of [state.pendingSuggestions]. *)
Record PendingItem := mkPendingItem {
  id : Z;
  originalText : string;
  status : PendingStatus;
  suggestions : option SuggestionData
}.

(** A product of a result list.  [product_name] and [title] are the
    optional [name] and [title] properties. *)
Record Product := mkProduct {
  product_name : option string;
  title : option string;
  merchant : string;
  price : Q;
  location : option string
}.

(** The [status] of a [/api/results] body; [JobOther] is any other value. *)
Inductive JobStatus := JobQueued | JobProcessing | JobComplete | JobFailed | JobOther.

(** The body of a [/api/results/{jobId}] response. *)
Record ResultsData := mkResultsData {
  job_status : JobStatus;
  queue_position : option Z;
  results : option (gmap string (list Product));
  zip_code : option string;
  total_time : option Q
}.

(** The body of a successful [/api/cart] response. *)
Record CartData := mkCartData { job_id : string }.

(** The outcome of [await fetch(...)] followed by the [response.ok] test
    and [await response.json()]: the request was rejected or its body was
    not JSON, the status was not 2xx, or the body was received. *)
Inductive Response (A : Type) :=
| NetworkError
| HttpNotOk
| HttpOk (data : A).
Arguments NetworkError {A}.
Arguments HttpNotOk {A}.
Arguments HttpOk {A} data.

(** The requests the script sends, with their JSON bodies. *)
Inductive Request :=
| ReqClarify (item : string) (context : list string)
| ReqCart (items : list string) (zipcode : string) (prioritize_nearby : bool)
| ReqResults (job : option string).

(** *** The results view written by [displayResults] *)

(** The block built for the best price of one cart item: one product row,
    or a first row with a toggle button labelled with [otherCount] and the
    hidden rows of the other stores. *)
Inductive BestPriceView :=
| SingleBest (product : Product) (bestPrice : Q)
| MultiBest (first : Product) (bestPrice : Q) (otherCount : nat)
            (cardIndex : nat) (hiddenRows : list Product).

(** A [result-card]: the "No products found" card or a populated one. *)
Inductive ResultCard :=
| NoProductsCard (item : string)
| ProductsCard (item : string) (best : BestPriceView).

Record ResultsView := mkResultsView {
  itemsFoundCount : nat;
  zipDisplay : option string;
  totalItems : nat;
  totalProducts : nat;
  processingTime : option Q;
  resultsTable : list ResultCard
}.

Definition emptyResultsView : ResultsView :=
  mkResultsView 0 None 0 0 None [].

(** The text of [loadingStatus]: a fixed text, or
    [Queued (position: ...)] with the position or [None] for ['?']. *)
Inductive LoadingStatus :=
| StatusText (text : string)
| StatusQueued (position : option Z).

(** ** The state threaded through the handlers *)

Record State := mkState {
  (* const state = { ... } *)
  cart : list CartItem;
  currentStep : Z;
  jobId : option string;
  pollInterval : option Z;
  zipCode : option string;
  pendingSuggestions : list PendingItem;
  (* let pollCount *)
  pollCount : Z;
  (* DOM properties *)
  itemInput_value : string;
  zipInput_value : string;
  progressFill_width : Z;
  loadingStatus_text : LoadingStatus;
  resultsView : ResultsView;
  toasts : list string;
  (* browser: active interval handles, next handle, requests sent *)
  intervals : list Z;
  nextHandle : Z;
  requests : list Request
}.

Definition set_cart v (s : State) : State :=
  mkState v (currentStep s) (jobId s) (pollInterval s) (zipCode s)
    (pendingSuggestions s) (pollCount s) (itemInput_value s)
    (zipInput_value s) (progressFill_width s) (loadingStatus_text s)
    (resultsView s) (toasts s) (intervals s) (nextHandle s) (requests s).
Definition set_currentStep v (s : State) : State :=
  mkState (cart s) v (jobId s) (pollInterval s) (zipCode s)
    (pendingSuggestions s) (pollCount s) (itemInput_value s)
    (zipInput_value s) (progressFill_width s) (loadingStatus_text s)
    (resultsView s) (toasts s) (intervals s) (nextHandle s) (requests s).
Definition set_jobId v (s : State) : State :=
  mkState (cart s) (currentStep s) v (pollInterval s) (zipCode s)
    (pendingSuggestions s) (pollCount s) (itemInput_value s)
    (zipInput_value s) (progressFill_width s) (loadingStatus_text s)
    (resultsView s) (toasts s) (intervals s) (nextHandle s) (requests s).
Definition set_pollInterval v (s : State) : State :=
  mkState (cart s) (currentStep s) (jobId s) v (zipCode s)
    (pendingSuggestions s) (pollCount s) (itemInput_value s)
    (zipInput_value s) (progressFill_width s) (loadingStatus_text s)
    (resultsView s) (toasts s) (intervals s) (nextHandle s) (requests s).
Definition set_zipCode v (s : State) : State :=
  mkState (cart s) (currentStep s) (jobId s) (pollInterval s) v
    (pendingSuggestions s) (pollCount s) (itemInput_value s)
    (zipInput_value s) (progressFill_width s) (loadingStatus_text s)
    (resultsView s) (toasts s) (intervals s) (nextHandle s) (requests s).
Definition set_pendingSuggestions v (s : State) : State :=
  mkState (cart s) (currentStep s) (jobId s) (pollInterval s) (zipCode s) v
    (pollCount s) (itemInput_value s) (zipInput_value s)
    (progressFill_width s) (loadingStatus_text s) (resultsView s) (toasts s)
    (intervals s) (nextHandle s) (requests s).
Definition set_pollCount v (s : State) : State :=
  mkState (cart s) (currentStep s) (jobId s) (pollInterval s) (zipCode s)
    (pendingSuggestions s) v (itemInput_value s) (zipInput_value s)
    (progressFill_width s) (loadingStatus_text s) (resultsView s) (toasts s)
    (intervals s) (nextHandle s) (requests s).
Definition set_itemInput_value v (s : State) : State :=
  mkState (cart s) (currentStep s) (jobId s) (pollInterval s) (zipCode s)
    (pendingSuggestions s) (pollCount s) v (zipInput_value s)
    (progressFill_width s) (loadingStatus_text s) (resultsView s) (toasts s)
    (intervals s) (nextHandle s) (requests s).
Definition set_zipInput_value v (s : State) : State :=
  mkState (cart s) (currentStep s) (jobId s) (pollInterval s) (zipCode s)
    (pendingSuggestions s) (pollCount s) (itemInput_value s) v
    (progressFill_width s) (loadingStatus_text s) (resultsView s) (toasts s)
    (intervals s) (nextHandle s) (requests s).
Definition set_progressFill_width v (s : State) : State :=
  mkState (cart s) (currentStep s) (jobId s) (pollInterval s) (zipCode s)
    (pendingSuggestions s) (pollCount s) (itemInput_value s)
    (zipInput_value s) v (loadingStatus_text s) (resultsView s) (toasts s)
    (intervals s) (nextHandle s) (requests s).
Definition set_loadingStatus_text v (s : State) : State :=
  mkState (cart s) (currentStep s) (jobId s) (pollInterval s) (zipCode s)
    (pendingSuggestions s) (pollCount s) (itemInput_value s)
    (zipInput_value s) (progressFill_width s) v (resultsView s) (toasts s)
    (intervals s) (nextHandle s) (requests s).
Definition set_resultsView v (s : State) : State :=
  mkState (cart s) (currentStep s) (jobId s) (pollInterval s) (zipCode s)
    (pendingSuggestions s) (pollCount s) (itemInput_value s)
    (zipInput_value s) (progressFill_width s) (loadingStatus_text s) v
    (toasts s) (intervals s) (nextHandle s) (requests s).
Definition set_toasts v (s : State) : State :=
  mkState (cart s) (currentStep s) (jobId s) (pollInterval s) (zipCode s)
    (pendingSuggestions s) (pollCount s) (itemInput_value s)
    (zipInput_value s) (progressFill_width s) (loadingStatus_text s)
    (resultsView s) v (intervals s) (nextHandle s) (requests s).
Definition set_intervals v (s : State) : State :=
  mkState (cart s) (currentStep s) (jobId s) (pollInterval s) (zipCode s)
    (pendingSuggestions s) (pollCount s) (itemInput_value s)
    (zipInput_value s) (progressFill_width s) (loadingStatus_text s)
    (resultsView s) (toasts s) v (nextHandle s) (requests s).
Definition set_nextHandle v (s : State) : State :=
  mkState (cart s) (currentStep s) (jobId s) (pollInterval s) (zipCode s)
    (pendingSuggestions s) (pollCount s) (itemInput_value s)
    (zipInput_value s) (progressFill_width s) (loadingStatus_text s)
    (resultsView s) (toasts s) (intervals s) v (requests s).
Definition set_requests v (s : State) : State :=
  mkState (cart s) (currentStep s) (jobId s) (pollInterval s) (zipCode s)
    (pendingSuggestions s) (pollCount s) (itemInput_value s)
    (zipInput_value s) (progressFill_width s) (loadingStatus_text s)
    (resultsView s) (toasts s) (intervals s) (nextHandle s) v.

(** The state when the script has loaded: the initial [state] object,
    [pollCount = 0], empty inputs, no interval and no request. *)
Definition init : State :=
  mkState [] 1 None None None [] 0 "" "" 0 (StatusText "") emptyResultsView [] [] 1 [].

(** ** Utility functions *)

(** [showToast(message)]: the message is appended to the log of notices
    shown to the user. *)
Definition showToast (message : string) (s : State) : State :=
  set_toasts (toasts s ++ [message]) s.

(** [goToStep(stepNumber)]. *)
Definition goToStep (stepNumber : Z) (s : State) : State :=
  set_currentStep stepNumber s.

(** [fetch]: the request is appended to the log of requests sent. *)
Definition fetch (r : Request) (s : State) : State :=
  set_requests (requests s ++ [r]) s.

(** [setInterval]: a fresh handle becomes active and is returned. *)
Definition setInterval (s : State) : Z * State :=
  (nextHandle s,
   set_nextHandle (nextHandle s + 1) (set_intervals (intervals s ++ [nextHandle s]) s)).

(** [clearInterval(handle)]: the handle, if any, is no longer active;
    [clearInterval(null)] does nothing. *)
Definition clearInterval (handle : option Z) (s : State) : State :=
  match handle with
  | None => s
  | Some h => set_intervals (List.filter (fun h' => negb (Z.eqb h' h)) (intervals s)) s
  end.

(** ** Step 1: cart building *)

Definition cartNames (s : State) : list string := List.map name (cart s).

(** [addToCart(name)]. *)
Definition addToCart (n : string) (s : State) : State :=
  if existsb (fun item => String.eqb (name item) n) (cart s) then
    showToast "Item already in cart!" s
  else if (CONFIG.MAX_ITEMS <=? List.length (cart s))%nat then
    showToast "Maximum 10 items allowed" s
  else
    showToast "Added to cart!" (set_cart (cart s ++ [mkCartItem n]) s).

(** [removeFromCart(index)]: [splice(index, 1)] for the non-negative
    indices the rendered buttons pass; beyond the end nothing is removed. *)
Definition removeFromCart (index : nat) (s : State) : State :=
  showToast "Removed from cart"
    (set_cart (firstn index (cart s) ++ skipn (S index) (cart s)) s).

(** The [clearCartBtn] click handler, given the answer to [confirm]. *)
Definition clearCartBtn_click (confirmed : bool) (s : State) : State :=
  if confirmed then set_cart [] s else s.

(** *** Pending AI suggestions *)

(** How a call completes: with a value, or by throwing. *)
Inductive Completion (A : Type) :=
| Returned (v : A)
| Thrown.
Arguments Returned {A} v.
Arguments Thrown {A}.

(** [Array.prototype.findIndex]; [None] stands for [-1]. *)
Fixpoint findIndex {A : Type} (f : A -> bool) (l : list A) : option nat :=
  match l with
  | [] => None
  | x :: l' => if f x then Some O else option_map S (findIndex f l')
  end.

Definition hasId (pendingId : Z) (p : PendingItem) : bool := Z.eqb (id p) pendingId.

(** [fetchSuggestions(item)] up to its [await fetch]: the request carries
    the item and the names in the cart. *)
Definition fetchSuggestions_start (item : string) (s : State) : State :=
  fetch (ReqClarify item (cartNames s)) s.

(** [fetchSuggestions(item)] from the response on.  Its [try] covers the
    whole body and its [catch] returns [null]: the call never throws. *)
Definition fetchSuggestions_resume (r : Response SuggestionData) (s : State)
  : Completion (option SuggestionData) * State :=
  match r with
  | HttpOk data => (Returned (Some data), s)
  | NetworkError | HttpNotOk =>
      (Returned None, showToast "Failed to get AI suggestions. Try again!" s)
  end.

(** [item.status = 'complete'; item.suggestions = suggestions]. *)
Definition markComplete (sugg : option SuggestionData) (p : PendingItem) : PendingItem :=
  mkPendingItem (id p) (originalText p) Complete sugg.

(** [item.status = 'error']. *)
Definition markError (p : PendingItem) : PendingItem :=
  mkPendingItem (id p) (originalText p) Error (suggestions p).

(** [const item = state.pendingSuggestions.find(p => p.id === pendingId);
    if (item) { <mutate item> }]: the first entry with that id is changed in
    place; without one nothing happens. *)
Definition updateFound (pendingId : Z) (f : PendingItem -> PendingItem)
  (s : State) : State :=
  match findIndex (hasId pendingId) (pendingSuggestions s) with
  | Some i => set_pendingSuggestions (alter f i (pendingSuggestions s)) s
  | None => s
  end.

(** [submitItemForAI(originalText)] up to the [await] inside
    [fetchSuggestions]; [now] is the value of [Date.now()]. *)
Definition submitItemForAI_start (now : Z) (originalText : string) (s : State) : State :=
  if (String.length originalText <? 2)%nat then s
  else
    let pendingId := now in
    let pendingItem := mkPendingItem pendingId originalText Loading None in
    let s1 := set_pendingSuggestions (pendingSuggestions s ++ [pendingItem]) s in
    let s2 := set_itemInput_value "" s1 in
    fetchSuggestions_start originalText s2.

(** [submitItemForAI] from the response on: the [try] branch when
    [fetchSuggestions] returned, the [catch] branch when it threw.  (The
    redraw inside the [try] does not throw for a body of the shape of
    [SuggestionData].) *)
Definition submitItemForAI_resume (pendingId : Z) (r : Response SuggestionData)
  (s : State) : State :=
  match fetchSuggestions_resume r s with
  | (Returned sugg, s1) => updateFound pendingId (markComplete sugg) s1
  | (Thrown, s1) => updateFound pendingId markError s1
  end.

(** [removePendingItem(pendingId)]: [splice(index, 1)] at the first entry
    with that id. *)
Definition removePendingItem (pendingId : Z) (s : State) : State :=
  match findIndex (hasId pendingId) (pendingSuggestions s) with
  | Some index => set_pendingSuggestions (delete index (pendingSuggestions s)) s
  | None => s
  end.

(** The click handler [createSuggestionCard(name, isBest, pendingId)]
    installs on a card. *)
Definition suggestionCard_click (n : string) (pendingId : option Z) (s : State) : State :=
  let s1 := addToCart n s in
  match pendingId with
  | Some pid => removePendingItem pid s1
  | None => s1
  end.

(** What [renderPendingSuggestions] puts in a [pending-item-card]: the
    spinner, the suggestion cards (each with its name, its "Best Match"
    flag and the id passed to its click handler), the failure notice with
    its Retry button, or nothing.  The button's [onclick] calls
    [retryPending(id)], a function the script does not define. *)
Inductive PendingCard :=
| LoadingCard (text : string)
| SuggestionsCard (text : string) (cards : list (string * bool * Z))
| ErrorCard (text : string) (retryId : Z)
| BlankCard.

Definition renderPendingCard (pending : PendingItem) : PendingCard :=
  match status pending, suggestions pending with
  | Loading, _ => LoadingCard (originalText pending)
  | Complete, Some data =>
      SuggestionsCard (originalText pending)
        (match suggested data with
         | Some n => [(n, true, id pending)]
         | None => []
         end ++
         List.map (fun alt => (alt, false, id pending)) (firstn 3 (alternatives data)))
  | Complete, None => BlankCard
  | Error, _ => ErrorCard (originalText pending) (id pending)
  end.

Definition renderPendingSuggestions (s : State) : list PendingCard :=
  List.map renderPendingCard (pendingSuggestions s).

(** The [keypress] listener of [itemInput]. *)
Definition itemInput_keypress (key : string) (now : Z) (s : State) : State :=
  if String.eqb key "Enter" then
    let value := trim (itemInput_value s) in
    if (2 <=? String.length value)%nat then submitItemForAI_start now value s else s
  else s.

(** The [click] listener of [addManualBtn]. *)
Definition addManualBtn_click (now : Z) (s : State) : State :=
  let value := trim (itemInput_value s) in
  if (2 <=? String.length value)%nat then submitItemForAI_start now value s else s.

(** The [click] listener of [continueBtn]. *)
Definition continueBtn_click (s : State) : State := goToStep 2 s.

(** ** Step 4: the results view *)

(** [[...products].sort((a, b) => a.price - b.price)].  [sort] is stable
    and the comparator is a consistent order on prices, which determines
    the result: the products by ascending price, equal prices in their
    original order.  It is computed here by insertion from the right, an
    element going before the first one that is not cheaper. *)
Fixpoint insertByPrice (x : Product) (l : list Product) : list Product :=
  match l with
  | [] => [x]
  | y :: l' =>
      match (price y ?= price x)%Q with
      | Lt => y :: insertByPrice x l'
      | _ => x :: l
      end
  end.

Fixpoint sortByPrice (products : list Product) : list Product :=
  match products with
  | [] => []
  | x :: l => insertByPrice x (sortByPrice l)
  end.

(** [p.price === bestPrice]. *)
Definition hasPrice (bestPrice : Q) (p : Product) : bool := Qeq_bool (price p) bestPrice.

Definition bestPriceProducts (sortedProducts : list Product) (bestPrice : Q) : list Product :=
  List.filter (hasPrice bestPrice) sortedProducts.

Definition otherProducts (sortedProducts : list Product) (bestPrice : Q) : list Product :=
  List.filter (fun p => negb (hasPrice bestPrice p)) sortedProducts.

(** The [else] branch of the loop body of [displayResults], for a
    non-empty product list.  [None] is the [TypeError] of reading a
    property of [undefined] ([sortedProducts[0]], [bestPriceProducts[0]]). *)
Definition renderBestPrice (cartIndex : nat) (products : list Product)
  : option BestPriceView :=
  let sortedProducts := sortByPrice products in
  p0 ← head sortedProducts;
  let bestPrice := price p0 in
  let best := bestPriceProducts sortedProducts bestPrice in
  if (List.length best =? 1)%nat then
    product ← head best;
    Some (SingleBest product bestPrice)
  else
    first ← head best;
    let otherCount := (List.length best - 1)%nat in
    Some (MultiBest first bestPrice otherCount cartIndex (drop 1 best)).

(** The properties every object inherits from [Object.prototype], each
    with what [.length] gives on its value: the number of parameters of
    the function, or [None] (undefined) for [__proto__], whose value is the
    prototype object itself. *)
Definition objectPrototype : list (string * option nat) :=
  [("constructor", Some 1%nat); ("hasOwnProperty", Some 1%nat);
   ("isPrototypeOf", Some 1%nat); ("propertyIsEnumerable", Some 1%nat);
   ("toLocaleString", Some 0%nat); ("toString", Some 0%nat);
   ("valueOf", Some 0%nat);
   ("__defineGetter__", Some 2%nat); ("__defineSetter__", Some 2%nat);
   ("__lookupGetter__", Some 1%nat); ("__lookupSetter__", Some 1%nat);
   ("__proto__", None)].

(** The [.length] of the inherited value of a name, when there is one. *)
Definition inheritedLength (n : string) : option (option nat) :=
  option_map snd (List.find (fun kv => String.eqb (fst kv) n) objectPrototype).

(** The value of [results[cartItem.name] || []]: a product list, or a
    value inherited from [Object.prototype] with its [.length]. *)
Inductive LookedUp :=
| ProductList (products : list Product)
| InheritedValue (len : option nat).

(** [results[cartItem.name] || []] on the parsed body: the entry of the
    mapping under that name; without one, the value the object inherits
    under that name, which is not falsy; and the empty list when there is
    neither. *)
Definition lookupResults (res : gmap string (list Product)) (n : string) : LookedUp :=
  match res !! n with
  | Some products => ProductList products
  | None =>
      match inheritedLength n with
      | Some len => InheritedValue len
      | None => ProductList []
      end
  end.

(** The loop body of [displayResults]: the card of one cart item.  An
    inherited value whose [.length] is 0 gets the "No products found"
    card; any other one is not iterable and [[...products]] throws. *)
Definition renderCard (res : gmap string (list Product)) (cartIndex : nat)
  (cartItem : CartItem) : option ResultCard :=
  match lookupResults res (name cartItem) with
  | ProductList products =>
      if (List.length products =? 0)%nat then
        Some (NoProductsCard (name cartItem))
      else
        best ← renderBestPrice cartIndex products;
        Some (ProductsCard (name cartItem) best)
  | InheritedValue (Some O) => Some (NoProductsCard (name cartItem))
  | InheritedValue _ => None
  end.

(** [Object.keys(results).filter(item => results[item].length > 0)]. *)
Definition itemsWithResults (res : gmap string (list Product)) : list string :=
  List.map fst
    (List.filter (fun kv => (0 <? List.length (snd kv))%nat) (map_to_list res)).

(** The sum of [products.length] over [Object.values(results)]. *)
Definition totalProductsCount (res : gmap string (list Product)) : nat :=
  foldr (fun kv acc => (acc + List.length (snd kv))%nat) O (map_to_list res).

(** What [displayResults] writes in the summary, with the cards written
    in the table. *)
Definition writeResultsView (data : ResultsData) (s : State) (cards : list ResultCard)
  : State :=
  let res := default ∅ (results data) in
  set_resultsView
    {| itemsFoundCount := List.length (itemsWithResults res);
       zipDisplay := match zip_code data with
                     | Some z => if String.eqb z "" then zipCode s else Some z
                     | None => zipCode s
                     end;
       totalItems := List.length (cart s);
       totalProducts := totalProductsCount res;
       processingTime := match total_time data with
                         | Some t => if Qeq_bool t 0%Q then None else Some t
                         | None => None
                         end;
       resultsTable := cards |} s.

(** [displayResults(data)]; [None] when building a card throws. *)
Definition displayResults (data : ResultsData) (s : State) : option State :=
  let res := default ∅ (results data) in
  cards ← mapM (fun ic => renderCard res (fst ic) (snd ic)) (imap pair (cart s));
  Some (writeResultsView data s cards).

(** The cards appended to the table before a card throws. *)
Fixpoint cardsBeforeThrow (res : gmap string (list Product))
  (items : list (nat * CartItem)) : list ResultCard :=
  match items with
  | [] => []
  | ic :: rest =>
      match renderCard res (fst ic) (snd ic) with
      | Some card => card :: cardsBeforeThrow res rest
      | None => []
      end
  end.

(** The state [displayResults(data)] leaves when a card throws: the
    summary, and the cards of the items before that one. *)
Definition displayResults_thrown (data : ResultsData) (s : State) : State :=
  writeResultsView data s
    (cardsBeforeThrow (default ∅ (results data)) (imap pair (cart s))).

(** ** Step 3: polling for results *)

(** [pollResults()] up to its [await fetch]. *)
Definition pollResults_start (s : State) : State :=
  let s1 := set_pollCount (pollCount s + 1) s in
  let progress := Z.min (pollCount s1 * 10) 90 in
  let s2 := set_progressFill_width progress s1 in
  fetch (ReqResults (jobId s2)) s2.

(** The [catch] branch of [pollResults]. *)
Definition pollResults_catch (s : State) : State :=
  let s1 := clearInterval (pollInterval s) s in
  let s2 := showToast "Error fetching results. Please try again." s1 in
  goToStep 2 s2.

(** [pollResults()] from the response on. *)
Definition pollResults_resume (r : Response ResultsData) (s : State) : State :=
  match r with
  | HttpOk data =>
      match job_status data with
      | JobComplete =>
          let s1 := clearInterval (pollInterval s) s in
          let s2 := set_progressFill_width 100 s1 in
          match displayResults data s2 with
          | Some s3 => goToStep 4 s3
          | None => pollResults_catch (displayResults_thrown data s2)
          end
      | JobProcessing =>
          set_loadingStatus_text (StatusText "Processing your items...") s
      | JobFailed =>
          let s1 := clearInterval (pollInterval s) s in
          let s2 := showToast "Search failed. Please try again." s1 in
          goToStep 2 s2
      | JobQueued =>
          set_loadingStatus_text
            (StatusQueued (match queue_position data with
                           | Some 0 | None => None
                           | Some n => Some n
                           end)) s
      | JobOther => s
      end
  | NetworkError | HttpNotOk => pollResults_catch s
  end.

(** [startPolling()]. *)
Definition startPolling (s : State) : State :=
  let s1 := set_pollCount 0 s in
  let (handle, s2) := setInterval s1 in
  let s3 := set_pollInterval (Some handle) s2 in
  pollResults_start s3.

(** The browser runs the callback of an interval: [pollResults] is called
    when the handle is active, and nothing happens when it was cleared. *)
Definition interval_fires (handle : Z) (s : State) : State :=
  if existsb (Z.eqb handle) (intervals s) then pollResults_start s else s.

(** ** Step 2: zip code and cart submission *)

(** [value.replace(/\D/g, '')]: the decimal digits of the text. *)
Fixpoint digitsOnly (text : string) : string :=
  match text with
  | EmptyString => EmptyString
  | String c text' =>
      if ((48 <=? N_of_ascii c) && (N_of_ascii c <=? 57))%N
      then String c (digitsOnly text') else digitsOnly text'
  end.

(** The [input] listener of [zipInput], for the text typed. *)
Definition zipInput_input (typed : string) (s : State) : State :=
  set_zipInput_value (digitsOnly typed) s.

(** [submitCart()] up to its [await fetch]; [prioritizeNearby] is the
    state of the toggle. *)
Definition submitCart_start (prioritizeNearby : bool) (s : State) : State :=
  let s1 := set_zipCode (Some (zipInput_value s)) s in
  let s2 := goToStep 3 s1 in
  fetch (ReqCart (cartNames s2) (zipInput_value s2) prioritizeNearby) s2.

(** The [catch] branch of [submitCart]. *)
Definition submitCart_catch (s : State) : State :=
  let s1 := showToast "Failed to submit cart. Please try again." s in
  goToStep 2 s1.

(** [submitCart()] from the response on. *)
Definition submitCart_resume (r : Response CartData) (s : State) : State :=
  match r with
  | HttpOk data =>
      let s1 := set_jobId (Some (job_id data)) s in
      let s2 := set_loadingStatus_text (StatusText "Job queued, waiting for worker...") s1 in
      startPolling s2
  | NetworkError | HttpNotOk => submitCart_catch s
  end.

(** The [click] listener of [backBtn]. *)
Definition backBtn_click (s : State) : State := goToStep 1 s.

(** The [click] listener of [newSearchBtn]. *)
Definition newSearchBtn_click (s : State) : State :=
  let s1 := set_cart [] s in
  let s2 := set_jobId None s1 in
  let s3 := set_zipCode None s2 in
  let s4 := set_itemInput_value "" s3 in
  let s5 := set_zipInput_value "" s4 in
  goToStep 1 s5.

(** ** Runs of the script *)

(** A run of [addToCart] calls, in order. *)
Definition addAll (names : list string) (s : State) : State :=
  fold_left (fun st n => addToCart n st) names s.

(** The invariant of the cart: names are pairwise distinct and there are
    at most [MAX_ITEMS] of them. *)
Definition cartOk (s : State) : Prop :=
  NoDup (cartNames s) /\ (List.length (cart s) <= CONFIG.MAX_ITEMS)%nat.

(** A run of [submitItemForAI] calls, each with the value [Date.now()]
    returned to it and the text submitted. *)
Definition submitAll (subs : list (Z * string)) (s : State) : State :=
  fold_left (fun st sub => submitItemForAI_start (fst sub) (snd sub) st) subs s.

(** The submissions of a run that create an entry. *)
Definition accepted (subs : list (Z * string)) : list (Z * string) :=
  List.filter (fun sub => negb (String.length (snd sub) <? 2)%nat) subs.

(** *** Submit and reset, as operations *)

(** A successful cart submission ([submitCart] answered with a job id) and
    a new search. *)
Inductive PollOp :=
| OpSubmit (prioritizeNearby : bool) (job : string)
| OpReset.

Definition runPollOp (op : PollOp) (s : State) : State :=
  match op with
  | OpSubmit p job => submitCart_resume (HttpOk (mkCartData job)) (submitCart_start p s)
  | OpReset => newSearchBtn_click s
  end.

Definition runPollOps (ops : list PollOp) (s : State) : State :=
  fold_left (fun st op => runPollOp op st) ops s.

Definition isSubmit (op : PollOp) : bool :=
  match op with OpSubmit _ _ => true | OpReset => false end.

(** *** The polling lifetime of one job *)

(** After [startPolling], the interval fires and responses to polls arrive,
    in any order. *)
Inductive PollEvent :=
| Fires (handle : Z)
| Reply (r : Response ResultsData).

Definition pollStep (e : PollEvent) (s : State) : State :=
  match e with
  | Fires h => interval_fires h s
  | Reply r => pollResults_resume r s
  end.

Definition runPoll (evs : list PollEvent) (s : State) : State :=
  fold_left (fun st e => pollStep e st) evs s.

(** The reply reports [status: "complete"]. *)
Definition reportsComplete (e : PollEvent) : bool :=
  match e with
  | Reply (HttpOk data) =>
      match job_status data with JobComplete => true | _ => false end
  | _ => false
  end.

(** *** The phase-gated flow, one request at a time *)

(** The user acts on the controls of the section shown for the current
    step, and every request is answered before the next event: picking a
    suggested name and clicking Continue (step 1), typing in the zip
    input, clicking Back or Find Prices (step 2; [r] answers the
    submission and [firstPoll] the poll [startPolling] makes at once), the
    interval firing ([r] answers its poll), and clicking New Search
    (step 4).  An event whose control is not shown, or whose interval is
    not active, changes nothing.  Whether a button is disabled is not
    taken into account: the events cover those of the page. *)
Inductive FlowEvent :=
| EvAddItem (n : string)
| EvContinue
| EvTypeZip (typed : string)
| EvBack
| EvFindPrices (prioritizeNearby : bool) (r : Response CartData)
               (firstPoll : Response ResultsData)
| EvFires (handle : Z) (r : Response ResultsData)
| EvNewSearch.

Definition flowStep (e : FlowEvent) (s : State) : State :=
  match e with
  | EvAddItem n =>
      if currentStep s =? 1 then addToCart n s else s
  | EvContinue =>
      if currentStep s =? 1 then continueBtn_click s else s
  | EvTypeZip typed =>
      if currentStep s =? 2 then zipInput_input typed s else s
  | EvBack =>
      if currentStep s =? 2 then backBtn_click s else s
  | EvFindPrices p r firstPoll =>
      if currentStep s =? 2 then
        let s1 := submitCart_resume r (submitCart_start p s) in
        match r with
        | HttpOk _ => pollResults_resume firstPoll s1
        | _ => s1
        end
      else s
  | EvFires h r =>
      if existsb (Z.eqb h) (intervals s)
      then pollResults_resume r (pollResults_start s) else s
  | EvNewSearch =>
      if currentStep s =? 4 then newSearchBtn_click s else s
  end.

Definition runFlow (evs : list FlowEvent) (s : State) : State :=
  fold_left (fun st e => flowStep e st) evs s.

(** *** Failures of a submission and of a poll *)

(** The cart submission failed: the request was rejected or answered with
    a status that is not 2xx. *)
Definition submitFailed (r : Response CartData) : bool :=
  match r with
  | HttpOk _ => false
  | NetworkError | HttpNotOk => true
  end.

(** A poll failed: its request failed, or it reports [status: "failed"]. *)
Definition pollFailed (r : Response ResultsData) : bool :=
  match r with
  | HttpOk data => match job_status data with JobFailed => true | _ => false end
  | NetworkError | HttpNotOk => true
  end.

(** A reply that ends the polling: a failure or [status: "complete"]. *)
Definition pollEnds (r : Response ResultsData) : bool :=
  pollFailed r || reportsComplete (Reply r).

(** *** Prices *)

(** Ascending by price. *)
Definition priceLe (a b : Product) : Prop := (price a <= price b)%Q.

(** The entries of the results mapping with at least one product. *)
Definition nonEmptyEntries (res : gmap string (list Product)) : gmap string (list Product) :=
  filter (fun kv => snd kv ≠ []) res.

(** The cart items whose product list is not empty. *)
Definition cartItemsFound (res : gmap string (list Product)) (items : list CartItem)
  : list CartItem :=
  List.filter
    (fun c => match lookupResults res (name c) with
              | ProductList (_ :: _) => true
              | _ => false
              end) items.

(** *** The examples of the specification *)

(** [{merchant:"A",price:3.50}], [{merchant:"B",price:3.50}] and
    [{merchant:"C",price:4.00}]. *)
Definition productA : Product := mkProduct None None "A" 3.50%Q None.
Definition productB : Product := mkProduct None None "B" 3.50%Q None.
Definition productC : Product := mkProduct None None "C" 4.00%Q None.

(** [{ "milk": [A, B, C] }]. *)
Definition milkResults : gmap string (list Product) :=
  {[ "milk" := [productA; productB; productC] ]}.

(** A complete job whose results hold ["bread"] only. *)
Definition breadOnly : ResultsData :=
  mkResultsData JobComplete None (Some {[ "bread" := [productA] ]}) None None.

(** A complete job whose results hold ["milk"] only. *)
Definition milkOnly : ResultsData :=
  mkResultsData JobComplete None (Some milkResults) None None.

(** *** Invariants of the interval table *)

(** In the phase-gated flow: no interval is active, or the step is 3 and
    the one active interval is the one stored in [state.pollInterval]. *)
Definition flowInv (s : State) : Prop :=
  intervals s = [] \/
  (currentStep s = 3 /\ exists h, intervals s = [h] /\ pollInterval s = Some h).

(** In the polling lifetime started with the interval [h0]: the progress
    is at most 100, and either the interval was cleared, or it is the only
    active one and the progress is the one of the last tick. *)
Definition pollInv (h0 : Z) (s : State) : Prop :=
  pollInterval s = Some h0 /\
  progressFill_width s <= 100 /\
  (intervals s = [] \/
   (intervals s = [h0] /\ progressFill_width s = Z.min (pollCount s * 10) 90)).

(** ** The rest of the script *)

(** *** The cart view written by [renderCart] *)

(** The content of [cartItems]: the empty-cart placeholder, or one row per
    item with its name and the index its remove button passes to
    [removeFromCart]. *)
Inductive CartItemsView :=
| EmptyCartView
| CartRows (rows : list (string * nat)).

(** What [renderCart] writes: the two numbers of the count, whether the
    clear button is shown, whether the continue button is disabled, and
    the items. *)
Record CartView := mkCartView {
  cartCount_text : nat * nat;
  clearCartBtn_shown : bool;
  continueBtn_disabled : bool;
  cartItems_view : CartItemsView
}.

(** [renderCart()]. *)
Definition renderCart (s : State) : CartView :=
  {| cartCount_text := (List.length (cart s), CONFIG.MAX_ITEMS);
     clearCartBtn_shown := (0 <? List.length (cart s))%nat;
     continueBtn_disabled := (List.length (cart s) =? 0)%nat;
     cartItems_view :=
       if (List.length (cart s) =? 0)%nat then EmptyCartView
       else CartRows (imap (fun index item => (name item, index)) (cart s)) |}.

(** The operations on the cart: a name is added, the remove button of a
    row is clicked, the clear button is clicked and the dialog answered. *)
Inductive CartOp :=
| CartAdd (n : string)
| CartRemove (index : nat)
| CartClear (confirmed : bool).

Definition runCartOp (op : CartOp) (s : State) : State :=
  match op with
  | CartAdd n => addToCart n s
  | CartRemove index => removeFromCart index s
  | CartClear confirmed => clearCartBtn_click confirmed s
  end.

Definition runCartOps (ops : list CartOp) (s : State) : State :=
  fold_left (fun st op => runCartOp op st) ops s.

(** *** The buttons whose [disabled] flag the listeners set *)

(** The state together with the [disabled] flags of [addManualBtn] and
    [findPricesBtn].  A disabled button receives no click. *)
Record Page := mkPage {
  page_state : State;
  addManualBtn_disabled : bool;
  findPricesBtn_disabled : bool
}.

(** The [input] listener of [itemInput], when the content of the input
    has become [typed]. *)
Definition itemInput_input (typed : string) (p : Page) : Page :=
  let value := trim typed in
  mkPage (set_itemInput_value typed (page_state p))
         (String.length value <? 2)%nat
         (findPricesBtn_disabled p).

(** A key is pressed in [itemInput]. *)
Definition page_itemInput_keypress (key : string) (now : Z) (p : Page) : Page :=
  mkPage (itemInput_keypress key now (page_state p))
         (addManualBtn_disabled p) (findPricesBtn_disabled p).

(** The user clicks [addManualBtn]. *)
Definition page_addManualBtn_click (now : Z) (p : Page) : Page :=
  if addManualBtn_disabled p then p
  else mkPage (addManualBtn_click now (page_state p))
              (addManualBtn_disabled p) (findPricesBtn_disabled p).

(** The [input] listener of [zipInput], when the user has made the
    content of the input [typed]. *)
Definition page_zipInput_input (typed : string) (p : Page) : Page :=
  let value := digitsOnly typed in
  mkPage (zipInput_input typed (page_state p))
         (addManualBtn_disabled p)
         (negb (String.length value =? CONFIG.MIN_ZIP_LENGTH)%nat).

(** The [keypress] listener of [zipInput]. *)
Definition zipInput_keypress (key : string) (prioritizeNearby : bool) (p : Page) : Page :=
  if String.eqb key "Enter" && negb (findPricesBtn_disabled p) then
    mkPage (submitCart_start prioritizeNearby (page_state p))
           (addManualBtn_disabled p) (findPricesBtn_disabled p)
  else p.

(** The user clicks [findPricesBtn]. *)
Definition findPricesBtn_click (prioritizeNearby : bool) (p : Page) : Page :=
  if findPricesBtn_disabled p then p
  else mkPage (submitCart_start prioritizeNearby (page_state p))
              (addManualBtn_disabled p) (findPricesBtn_disabled p).

(** The user clicks [newSearchBtn]: the listener touches neither flag. *)
Definition page_newSearchBtn_click (p : Page) : Page :=
  mkPage (newSearchBtn_click (page_state p))
         (addManualBtn_disabled p) (findPricesBtn_disabled p).

(** The user clicks [continueBtn]. *)
Definition page_continueBtn_click (p : Page) : Page :=
  mkPage (continueBtn_click (page_state p))
         (addManualBtn_disabled p) (findPricesBtn_disabled p).

(** A decimal digit. *)
Definition isDigit (c : ascii) : bool :=
  ((48 <=? N_of_ascii c) && (N_of_ascii c <=? 57))%N.

(** Every character of the text satisfies the test. *)
Fixpoint allChars (f : ascii -> bool) (text : string) : bool :=
  match text with
  | EmptyString => true
  | String c text' => f c && allChars f text'
  end.

(** *** [toggleStores] *)

(** The text of a toggle button: [+ n other store(s)], with the plural
    mark, or [- Hide other stores]. *)
Inductive ToggleLabel :=
| ShowOthers (count : nat) (plural : bool)
| HideOthers.

(** The block of the other stores of a card: whether it has the class
    [hidden], the number of its product rows, and the text of its
    button. *)
Record StoresPanel := mkStoresPanel {
  stores_hidden : bool;
  stores_rows : nat;
  btn_text : ToggleLabel
}.

(** The block as [displayResults] writes it for a best price shared by
    several stores; a single store has none. *)
Definition storesPanel (view : BestPriceView) : option StoresPanel :=
  match view with
  | SingleBest _ _ => None
  | MultiBest _ _ otherCount _ hiddenRows =>
      Some (mkStoresPanel true (List.length hiddenRows)
              (ShowOthers otherCount (1 <? otherCount)%nat))
  end.

(** [window.toggleStores(cardId)], on the block of that card. *)
Definition toggleStores (panel : StoresPanel) : StoresPanel :=
  if stores_hidden panel then
    mkStoresPanel false (stores_rows panel) HideOthers
  else
    let count := stores_rows panel in
    mkStoresPanel true (stores_rows panel) (ShowOthers count (1 <? count)%nat).

(** The products a card shows, the first and then the hidden rows. *)
Definition shownProducts (view : BestPriceView) : list Product :=
  match view with
  | SingleBest product _ => [product]
  | MultiBest first _ _ _ hiddenRows => first :: hiddenRows
  end.

(** *** Auxiliary notions for the pending entries *)

(** The list after [find] and the mutation of the entry found. *)
Definition alterFound (pendingId : Z) (f : PendingItem -> PendingItem)
  (l : list PendingItem) : list PendingItem :=
  match findIndex (hasId pendingId) l with
  | Some i => alter f i l
  | None => l
  end.

(** The entries whose id is not [pendingId]. *)
Definition withoutId (pendingId : Z) (l : list PendingItem) : list PendingItem :=
  List.filter (fun q => negb (hasId pendingId q)) l.

(** *** Events that end the polling *)

(** The event is a reply that ends the polling. *)
Definition endsPolling (e : PollEvent) : bool :=
  match e with
  | Reply r => pollEnds r
  | Fires _ => false
  end.

(** *** [debounce] *)

(** The function [debounce(func, delay)] returns, with the arguments of
    [func] of type [Args].  Its state: the variable [timeoutId] of the
    closure, the timeouts the browser holds for it, each with the arguments
    its callback will pass to [func], the next handle of the browser, and
    the arguments [func] was applied to so far.  The delay is the time
    after which a timeout held fires. *)
Record Debounced (Args : Type) := mkDebounced {
  timeoutId : option Z;
  timeouts : list (Z * Args);
  nextTimeout : Z;
  applied : list Args
}.
Arguments mkDebounced {Args}.
Arguments timeoutId {Args}.
Arguments timeouts {Args}.
Arguments nextTimeout {Args}.
Arguments applied {Args}.

(** [debounce(func, delay)]: [timeoutId] is undefined and nothing is
    scheduled; [next] is the next handle of the browser. *)
Definition debounce {Args : Type} (next : Z) : Debounced Args :=
  mkDebounced None [] next [].

(** [clearTimeout(id)] on the timeouts held. *)
Definition clearTimeout {Args : Type} (handle : option Z) (held : list (Z * Args))
  : list (Z * Args) :=
  match handle with
  | None => held
  | Some h => List.filter (fun t => negb (Z.eqb (fst t) h)) held
  end.

(** A call of the debounced function with [args]:
    [clearTimeout(timeoutId); timeoutId = setTimeout(..., delay)]. *)
Definition debounced_call {Args : Type} (args : Args) (d : Debounced Args)
  : Debounced Args :=
  mkDebounced (Some (nextTimeout d))
              (clearTimeout (timeoutId d) (timeouts d) ++ [(nextTimeout d, args)])
              (nextTimeout d + 1)
              (applied d).

(** The delay of the timeout [handle] has elapsed: if it is still held,
    its callback applies [func] to its arguments. *)
Definition timeout_fires {Args : Type} (handle : Z) (d : Debounced Args)
  : Debounced Args :=
  match List.find (fun t => Z.eqb (fst t) handle) (timeouts d) with
  | Some (_, args) =>
      mkDebounced (timeoutId d)
                  (List.filter (fun t => negb (Z.eqb (fst t) handle)) (timeouts d))
                  (nextTimeout d)
                  (applied d ++ [args])
  | None => d
  end.

(** Calls of the debounced function and expiries of timeouts. *)
Inductive DebounceEvent (Args : Type) :=
| Called (args : Args)
| Elapsed (handle : Z).
Arguments Called {Args} args.
Arguments Elapsed {Args} handle.

Definition debounceStep {Args : Type} (e : DebounceEvent Args) (d : Debounced Args)
  : Debounced Args :=
  match e with
  | Called args => debounced_call args d
  | Elapsed h => timeout_fires h d
  end.

Definition runDebounce {Args : Type} (evs : list (DebounceEvent Args))
  (d : Debounced Args) : Debounced Args :=
  fold_left (fun st e => debounceStep e st) evs d.

(** The arguments of the calls among the events, in order. *)
Definition calledArgs {Args : Type} (evs : list (DebounceEvent Args)) : list Args :=
  omap (fun e => match e with Called args => Some args | Elapsed _ => None end) evs.

(** At most the timeout stored in [timeoutId] is held. *)
Definition debounceInv {Args : Type} (d : Debounced Args) : Prop :=
  timeouts d = [] \/
  exists args, timeouts d = [(nextTimeout d - 1, args)] /\
               timeoutId d = Some (nextTimeout d - 1).

(** *** The proxy functions of [api/] *)

(** The outcome of the [fetch] to the backend followed by
    [response.json()]: a status with its body, or an error with its
    message. *)
Inductive BackendOutcome (Json : Type) :=
| BackendAnswers (status : Z) (data : Json)
| BackendThrows (message : string).
Arguments BackendAnswers {Json} status data.
Arguments BackendThrows {Json} message.

(** A request to the backend: url, method and body. *)
Record BackendCall (Json : Type) := mkBackendCall {
  call_url : string;
  call_method : string;
  call_body : option Json
}.
Arguments mkBackendCall {Json}.
Arguments call_url {Json}.
Arguments call_method {Json}.
Arguments call_body {Json}.

(** What a handler answers with [res.status(...).json(...)]: an error
    object, with [details] or not, or the data of the backend. *)
Inductive ProxyBody (Json : Type) :=
| ErrorBody (error : string) (details : option string)
| DataBody (data : Json).
Arguments ErrorBody {Json} error details.
Arguments DataBody {Json} data.

(** The request a handler receives: method, [query.jobId] and body. *)
Record ProxyRequest (Json : Type) := mkProxyRequest {
  req_method : string;
  req_jobId : option string;
  req_body : Json
}.
Arguments mkProxyRequest {Json}.
Arguments req_method {Json}.
Arguments req_jobId {Json}.
Arguments req_body {Json}.

(** [process.env.BACKEND_API_URL || 'http://146.190.129.92:8000']. *)
Definition backendUrl (env : option string) : string :=
  match env with
  | Some url => if String.eqb url "" then "http://146.190.129.92:8000" else url
  | None => "http://146.190.129.92:8000"
  end.

(** The handler of [api/results/[jobId].js]: the calls made to the
    backend, the status and the body answered.  [backend] is the outcome
    of a call. *)
Definition resultsHandler {Json : Type} (env : option string)
  (backend : BackendCall Json -> BackendOutcome Json) (req : ProxyRequest Json)
  : list (BackendCall Json) * (Z * ProxyBody Json) :=
  if negb (String.eqb (req_method req) "GET") then
    ([], (405, ErrorBody "Method not allowed" None))
  else
    match req_jobId req with
    | None => ([], (400, ErrorBody "Job ID is required" None))
    | Some jobId =>
        if String.eqb jobId "" then ([], (400, ErrorBody "Job ID is required" None))
        else
          let call := mkBackendCall (backendUrl env ++ "/api/results/" ++ jobId)%string
                                    "GET" None in
          match backend call with
          | BackendAnswers status data => ([call], (status, DataBody data))
          | BackendThrows message =>
              ([call], (500, ErrorBody "Failed to contact backend API" (Some message)))
          end
    end.

(** The handlers of the clarify and cart proxies, which differ in the
    path, ["/api/clarify"] or ["/api/cart"]. *)
Definition postHandler {Json : Type} (path : string) (env : option string)
  (backend : BackendCall Json -> BackendOutcome Json) (req : ProxyRequest Json)
  : list (BackendCall Json) * (Z * ProxyBody Json) :=
  if negb (String.eqb (req_method req) "POST") then
    ([], (405, ErrorBody "Method not allowed" None))
  else
    let call := mkBackendCall (backendUrl env ++ path)%string "POST" (Some (req_body req)) in
    match backend call with
    | BackendAnswers status data => ([call], (status, DataBody data))
    | BackendThrows message =>
        ([call], (500, ErrorBody "Failed to contact backend API" (Some message)))
    end.

(** How the script reads an answer of a proxy: [response.ok] holds for a
    status from 200 to 299. *)
Definition responseOk (status : Z) : bool := (200 <=? status) && (status <=? 299).

(** How [pollResults] reads the answer of the results proxy: a status
    outside 200..299 fails the [response.ok] test; an error object read as
    a body has no [status] the script knows. *)
Definition readByPoll (answer : Z * ProxyBody ResultsData) : Response ResultsData :=
  if responseOk (fst answer) then
    match snd answer with
    | DataBody data => HttpOk data
    | ErrorBody _ _ => HttpOk (mkResultsData JobOther None None None None)
    end
  else HttpNotOk.

(** How [submitCart] reads the answer of the cart proxy; an error object
    read as a body has no [job_id], and reading its prefix throws. *)
Definition readBySubmit (answer : Z * ProxyBody CartData) : Response CartData :=
  if responseOk (fst answer) then
    match snd answer with
    | DataBody data => HttpOk data
    | ErrorBody _ _ => NetworkError
    end
  else HttpNotOk.

(** *** [displaySuggestions] *)

(** The suggestions area as [displaySuggestions] leaves it: whether it is
    hidden, the cards in it, each with its name and its "Best Match"
    flag, and whether the manual button is displayed. *)
Record SuggestionsArea := mkSuggestionsArea {
  suggestionsDiv_hidden : bool;
  suggestionsContent_cards : list (string * bool);
  addManualBtn_displayed : bool
}.

(** [displaySuggestions(data)], on the area as it was; [None] is a
    [null] answer. *)
Definition displaySuggestions (data : option SuggestionData) (area : SuggestionsArea)
  : SuggestionsArea :=
  match data with
  | Some d =>
      match suggested d with
      | Some n =>
          mkSuggestionsArea false
            ((n, true) :: List.map (fun alt => (alt, false)) (firstn 3 (alternatives d)))
            false
      | None => mkSuggestionsArea true (suggestionsContent_cards area) true
      end
  | None => mkSuggestionsArea true (suggestionsContent_cards area) true
  end.

(** * Properties *)

(** ** The cart *)

Lemma existsb_name_In (n : string) (items : list CartItem) :
  existsb (fun item => String.eqb (name item) n) items = true <->
  In n (List.map name items).
Proof.
  induction items as [|c items IH]; simpl.
  - split; [discriminate | tauto].
  - rewrite orb_true_iff, IH, String.eqb_eq. tauto.
Qed.

(** What [addToCart] does to the cart. *)
Lemma cart_addToCart (n : string) (s : State) :
  cart (addToCart n s) =
  if existsb (fun item => String.eqb (name item) n) (cart s) then cart s
  else if (CONFIG.MAX_ITEMS <=? List.length (cart s))%nat then cart s
  else cart s ++ [mkCartItem n].
Proof.
  unfold addToCart.
  destruct (existsb _ (cart s)); [reflexivity|].
  destruct (CONFIG.MAX_ITEMS <=? List.length (cart s))%nat; reflexivity.
Qed.

Lemma cartOk_addToCart (n : string) (s : State) :
  cartOk s -> cartOk (addToCart n s).
Proof.
  intros [Hnd Hlen]. unfold cartOk, cartNames. rewrite cart_addToCart.
  destruct (existsb _ (cart s)) eqn:Hex; [now split|].
  destruct (CONFIG.MAX_ITEMS <=? List.length (cart s))%nat eqn:Hfull; [now split|].
  apply Nat.leb_gt in Hfull. split.
  - rewrite List.map_app. simpl. apply NoDup_app. repeat split.
    + exact Hnd.
    + intros x Hx Hin. apply list_elem_of_In in Hx. apply list_elem_of_In in Hin.
      destruct Hin as [<-|[]].
      apply existsb_name_In in Hx. fold (cartNames s) in Hx. congruence.
    + apply NoDup_singleton.
  - rewrite List.length_app. simpl. unfold CONFIG.MAX_ITEMS in *. lia.
Qed.

Lemma cartOk_addAll (names : list string) (s : State) :
  cartOk s -> cartOk (addAll names s).
Proof.
  revert s. induction names as [|n names IH]; intros s Hs; simpl.
  - exact Hs.
  - apply IH, cartOk_addToCart, Hs.
Qed.

(** C4. [addToCart] of a name already in the cart (exact, case-sensitive
    comparison of strings), or when the cart holds 10 items, only shows a
    notice: the call returns, and the state is the one before plus the
    notice.  Any other call appends the name.  Hence after any run of
    [addToCart] calls from a cart with pairwise distinct names and at most
    10 items, in particular from the empty cart of the initial state, the
    names in the cart are pairwise distinct and there are at most 10. *)
Theorem addToCart_dedupe_and_capacity :
  (forall (n : string) (s : State),
      In n (cartNames s) \/ (10 <= List.length (cart s))%nat ->
      cart (addToCart n s) = cart s /\
      exists notice, notice <> "Added to cart!" /\ addToCart n s = showToast notice s) /\
  (forall (n : string) (s : State),
      ~ In n (cartNames s) -> (List.length (cart s) < 10)%nat ->
      cart (addToCart n s) = cart s ++ [mkCartItem n]) /\
  (forall (names : list string) (s : State),
      NoDup (cartNames s) -> (List.length (cart s) <= 10)%nat ->
      NoDup (cartNames (addAll names s)) /\
      (List.length (cart (addAll names s)) <= 10)%nat) /\
  (forall names : list string,
      NoDup (cartNames (addAll names init)) /\
      (List.length (cart (addAll names init)) <= 10)%nat).
Proof.
  split; [|split; [|split]].
  - intros n s H. unfold addToCart.
    destruct (existsb _ (cart s)) eqn:Hex.
    + split; [reflexivity|]. exists "Item already in cart!". split; [discriminate|reflexivity].
    + destruct H as [H|H].
      * apply existsb_name_In in H. congruence.
      * apply Nat.leb_le in H. unfold CONFIG.MAX_ITEMS. rewrite H.
        split; [reflexivity|]. exists "Maximum 10 items allowed".
        split; [discriminate|reflexivity].
  - intros n s Hn Hlen. rewrite cart_addToCart.
    destruct (existsb _ (cart s)) eqn:Hex.
    + apply existsb_name_In in Hex. contradiction.
    + apply Nat.leb_gt in Hlen. unfold CONFIG.MAX_ITEMS. now rewrite Hlen.
  - intros names s Hnd Hlen. apply (cartOk_addAll names s). split; assumption.
  - intros names. apply (cartOk_addAll names init). split.
    + constructor.
    + simpl. unfold CONFIG.MAX_ITEMS. lia.
Qed.

Lemma addToCart_dedupe_and_capacity_witness :
  cart (addToCart "milk" (addToCart "milk" init)) = [mkCartItem "milk"] /\
  cart (addToCart "Milk" (addToCart "milk" init)) = [mkCartItem "milk"; mkCartItem "Milk"] /\
  List.length (cart (addAll ["a1"; "a2"; "a3"; "a4"; "a5"; "a6"; "a7"; "a8"; "a9"; "a10"; "a11"] init)) = 10%nat /\
  NoDup (cartNames (addAll ["milk"; "eggs"; "milk"] init)).
Proof.
  destruct addToCart_dedupe_and_capacity as (Hrej & Happ & Hrun & _).
  split; [|split; [|split]].
  - rewrite (proj1 (Hrej "milk" (addToCart "milk" init) (or_introl (or_introl eq_refl)))).
    reflexivity.
  - rewrite (Happ "Milk" (addToCart "milk" init)).
    + reflexivity.
    + simpl. intros [H|[]]. discriminate H.
    + simpl. lia.
  - reflexivity.
  - apply (Hrun ["milk"; "eggs"; "milk"] init).
    + constructor.
    + simpl. lia.
Defined.

(** ** Submitting item text *)

(** A text of two characters or more creates a loading entry under the id
    [now], clears the input and sends one clarification request. *)
Lemma submitItemForAI_start_accepts (now : Z) (text : string) (s : State) :
  (2 <= String.length text)%nat ->
  pendingSuggestions (submitItemForAI_start now text s) =
    pendingSuggestions s ++ [mkPendingItem now text Loading None] /\
  requests (submitItemForAI_start now text s) =
    requests s ++ [ReqClarify text (cartNames s)] /\
  itemInput_value (submitItemForAI_start now text s) = "".
Proof.
  intros H. unfold submitItemForAI_start.
  apply Nat.ltb_ge in H. rewrite H. simpl. auto.
Qed.

(** C10. When the trimmed content of the input has fewer than 2
    characters, pressing a key in the input (Enter included) and clicking
    the add button leave the whole state as it was: no pending entry is
    created and no request is sent.  [submitItemForAI] itself returns at
    once for a text of fewer than 2 characters. *)
Theorem short_text_is_not_submitted (key : string) (now : Z) (s : State) :
  (String.length (trim (itemInput_value s)) < 2)%nat ->
  (itemInput_keypress key now s = s /\
   pendingSuggestions (itemInput_keypress key now s) = pendingSuggestions s /\
   requests (itemInput_keypress key now s) = requests s) /\
  (addManualBtn_click now s = s /\
   pendingSuggestions (addManualBtn_click now s) = pendingSuggestions s /\
   requests (addManualBtn_click now s) = requests s) /\
  submitItemForAI_start now (trim (itemInput_value s)) s = s.
Proof.
  intros H.
  assert (Hk : itemInput_keypress key now s = s).
  { unfold itemInput_keypress. destruct (String.eqb key "Enter"); [|reflexivity].
    apply Nat.leb_gt in H. cbv zeta. now rewrite H. }
  assert (Hc : addManualBtn_click now s = s).
  { unfold addManualBtn_click. apply Nat.leb_gt in H. cbv zeta. now rewrite H. }
  rewrite Hk, Hc. repeat split.
  unfold submitItemForAI_start. apply Nat.ltb_lt in H. now rewrite H.
Qed.

Lemma short_text_is_not_submitted_witness :
  trim (itemInput_value (set_itemInput_value "  a " init)) = "a" /\
  itemInput_keypress "Enter" 1000 (set_itemInput_value "  a " init) =
    set_itemInput_value "  a " init.
Proof.
  split; [reflexivity|].
  apply (short_text_is_not_submitted "Enter" 1000 (set_itemInput_value "  a " init)).
  simpl. lia.
Defined.

(** ** Failures of the submission and of a poll *)

Lemma clearInterval_frame (h : option Z) (s : State) :
  cart (clearInterval h s) = cart s /\
  zipCode (clearInterval h s) = zipCode s /\
  zipInput_value (clearInterval h s) = zipInput_value s /\
  toasts (clearInterval h s) = toasts s /\
  currentStep (clearInterval h s) = currentStep s /\
  progressFill_width (clearInterval h s) = progressFill_width s /\
  pollCount (clearInterval h s) = pollCount s /\
  pollInterval (clearInterval h s) = pollInterval s.
Proof. destruct h; simpl; repeat split. Qed.

(** C3. A failed cart submission (request rejected or status not 2xx)
    shows a notice and sets the step to 2 with the cart and the stored zip
    code as they were; counted from the click, the stored zip code is the
    one in the zip input, which keeps its content.  A poll that fails
    (request rejected, status not 2xx, or a body reporting [failed]) shows
    a notice and sets the step to 2 with the cart and the stored zip code
    as they were, on every tick. *)
Theorem failure_reverts_to_location_keeping_cart_and_zip :
  (forall (r : Response CartData) (s : State),
      submitFailed r = true ->
      let s' := submitCart_resume r s in
      currentStep s' = 2 /\ cart s' = cart s /\ zipCode s' = zipCode s /\
      zipInput_value s' = zipInput_value s /\
      toasts s' = toasts s ++ ["Failed to submit cart. Please try again."]) /\
  (forall (p : bool) (r : Response CartData) (s : State),
      submitFailed r = true ->
      let s' := submitCart_resume r (submitCart_start p s) in
      currentStep s' = 2 /\ cart s' = cart s /\
      zipCode s' = Some (zipInput_value s) /\
      zipInput_value s' = zipInput_value s /\
      toasts s' = toasts s ++ ["Failed to submit cart. Please try again."]) /\
  (forall (r : Response ResultsData) (s : State),
      pollFailed r = true ->
      let s' := pollResults_resume r s in
      currentStep s' = 2 /\ cart s' = cart s /\ zipCode s' = zipCode s /\
      zipInput_value s' = zipInput_value s /\
      exists notice, toasts s' = toasts s ++ [notice]) /\
  (forall (r : Response ResultsData) (s : State),
      pollFailed r = true ->
      let s' := pollResults_resume r (pollResults_start s) in
      currentStep s' = 2 /\ cart s' = cart s /\ zipCode s' = zipCode s /\
      zipInput_value s' = zipInput_value s /\
      exists notice, toasts s' = toasts s ++ [notice]).
Proof.
  assert (Hpoll : forall (r : Response ResultsData) (s : State),
      pollFailed r = true ->
      let s' := pollResults_resume r s in
      currentStep s' = 2 /\ cart s' = cart s /\ zipCode s' = zipCode s /\
      zipInput_value s' = zipInput_value s /\
      exists notice, toasts s' = toasts s ++ [notice]).
  { intros r s Hr.
    destruct (clearInterval_frame (pollInterval s) s) as (Hc & Hz & Hi & Ht & _).
    destruct r as [| |data]; simpl in *.
    - rewrite Hc, Hz, Hi, Ht. repeat split. eexists; reflexivity.
    - rewrite Hc, Hz, Hi, Ht. repeat split. eexists; reflexivity.
    - destruct (job_status data); try discriminate. simpl.
      rewrite Hc, Hz, Hi, Ht. repeat split. eexists; reflexivity. }
  split; [|split; [|split]].
  - intros r s Hr. destruct r; simpl in *; try discriminate; repeat split.
  - intros p r s Hr. destruct r; simpl in *; try discriminate; repeat split.
  - exact Hpoll.
  - intros r s Hr. exact (Hpoll r (pollResults_start s) Hr).
Qed.

Lemma failure_reverts_to_location_keeping_cart_and_zip_witness :
  let s := set_zipInput_value "02139" (addToCart "bread" init) in
  let s' := submitCart_resume HttpNotOk (submitCart_start true s) in
  currentStep s' = 2 /\ cart s' = [mkCartItem "bread"] /\ zipCode s' = Some "02139".
Proof.
  intros s s'.
  destruct failure_reverts_to_location_keeping_cart_and_zip as (_ & H & _).
  destruct (H true HttpNotOk s eq_refl) as (H1 & H2 & H3 & _).
  fold s' in H1, H2, H3. rewrite H1, H2, H3. repeat split.
Defined.

(** ** The poll timer *)

(** [displayResults] writes the results view and nothing else. *)
Lemma displayResults_frame (data : ResultsData) (s s' : State) :
  displayResults data s = Some s' -> s' = set_resultsView (resultsView s') s.
Proof.
  unfold displayResults. intros H.
  destruct (mapM _ _) as [cards|]; simpl in H; [|discriminate].
  injection H as <-. reflexivity.
Qed.

Lemma intervals_startPolling (s : State) :
  intervals (startPolling s) = intervals s ++ [nextHandle s] /\
  pollInterval (startPolling s) = Some (nextHandle s) /\
  currentStep (startPolling s) = currentStep s /\
  pollCount (startPolling s) = 1 /\
  progressFill_width (startPolling s) = 10.
Proof. repeat split. Qed.

Lemma intervals_clearInterval_nil (h : option Z) (s : State) :
  intervals s = [] -> intervals (clearInterval h s) = [].
Proof. intros H. destruct h; simpl; [rewrite H|]; auto. Qed.

Lemma intervals_clearInterval_own (h : Z) (s : State) :
  intervals s = [h] -> intervals (clearInterval (Some h) s) = [].
Proof. intros H. simpl. rewrite H. simpl. now rewrite Z.eqb_refl. Qed.

(** Clearing the stored handle leaves no interval, when at most the
    stored one was active. *)
Lemma intervals_clear_stored (s : State) :
  (intervals s = [] \/ exists h, intervals s = [h] /\ pollInterval s = Some h) ->
  intervals (clearInterval (pollInterval s) s) = [].
Proof.
  intros [H|(h & H & Hp)].
  - now apply intervals_clearInterval_nil.
  - rewrite Hp. now apply intervals_clearInterval_own.
Qed.

(** A reply that ends the polling leaves no interval; any other reply
    leaves the intervals, the stored handle and the step as they are. *)
Lemma pollResults_resume_intervals (r : Response ResultsData) (s : State) :
  (intervals s = [] \/ exists h, intervals s = [h] /\ pollInterval s = Some h) ->
  intervals (pollResults_resume r s) = [] \/
  (intervals (pollResults_resume r s) = intervals s /\
   pollInterval (pollResults_resume r s) = pollInterval s /\
   currentStep (pollResults_resume r s) = currentStep s).
Proof.
  intros H. pose proof (intervals_clear_stored s H) as Hclear.
  destruct r as [| |data]; simpl.
  - left. exact Hclear.
  - left. exact Hclear.
  - destruct (job_status data); simpl; auto.
    left. destruct (displayResults data _) as [s3|] eqn:Hd.
    + apply displayResults_frame in Hd. rewrite Hd. simpl. exact Hclear.
    + unfold pollResults_catch. simpl.
      apply intervals_clearInterval_nil. simpl. exact Hclear.
Qed.

Lemma flowInv_pollResults_resume (r : Response ResultsData) (s : State) :
  flowInv s -> flowInv (pollResults_resume r s).
Proof.
  intros H.
  destruct (pollResults_resume_intervals r s) as [Hn|(Hi & Hp & Hs)].
  - destruct H as [H|(_ & H)]; [left|right]; assumption.
  - left. exact Hn.
  - unfold flowInv. rewrite Hi, Hp, Hs. exact H.
Qed.

Lemma flowInv_flowStep (e : FlowEvent) (s : State) :
  flowInv s -> flowInv (flowStep e s).
Proof.
  intros H.
  assert (Hidle : currentStep s <> 3 -> intervals s = []).
  { intros Hne. destruct H as [H|(H3 & _)]; [exact H | contradiction]. }
  destruct e as [n| |typed| |p r firstPoll|h r|]; simpl.
  - destruct (currentStep s =? 1) eqn:Hc; [|exact H].
    apply Z.eqb_eq in Hc. left.
    assert (Hn : intervals (addToCart n s) = intervals s).
    { unfold addToCart. destruct (existsb _ _); [reflexivity|].
      destruct (_ <=? _)%nat; reflexivity. }
    rewrite Hn. apply Hidle. lia.
  - destruct (currentStep s =? 1) eqn:Hc; [|exact H].
    apply Z.eqb_eq in Hc. left. simpl. apply Hidle. lia.
  - destruct (currentStep s =? 2) eqn:Hc; [|exact H].
    apply Z.eqb_eq in Hc. left. simpl. apply Hidle. lia.
  - destruct (currentStep s =? 2) eqn:Hc; [|exact H].
    apply Z.eqb_eq in Hc. left. simpl. apply Hidle. lia.
  - destruct (currentStep s =? 2) eqn:Hc; [|exact H].
    apply Z.eqb_eq in Hc. assert (Hnil : intervals s = []) by (apply Hidle; lia).
    destruct r as [| |data].
    + left. simpl. exact Hnil.
    + left. simpl. exact Hnil.
    + apply flowInv_pollResults_resume. right. simpl. rewrite Hnil.
      split; [reflexivity|]. eexists. split; reflexivity.
  - destruct (existsb _ _); [|exact H].
    apply flowInv_pollResults_resume. exact H.
  - destruct (currentStep s =? 4) eqn:Hc; [|exact H].
    apply Z.eqb_eq in Hc. left. simpl. apply Hidle. lia.
Qed.

Lemma flowInv_runFlow (evs : list FlowEvent) (s : State) :
  flowInv s -> flowInv (runFlow evs s).
Proof.
  revert s. induction evs as [|e evs IH]; intros s H; simpl.
  - exact H.
  - apply IH, flowInv_flowStep, H.
Qed.

(** Each successful submission adds an interval, a new search removes
    none. *)
Lemma intervals_runPollOps (ops : list PollOp) (s : State) :
  List.length (intervals (runPollOps ops s)) =
  (List.length (intervals s) + List.length (List.filter isSubmit ops))%nat.
Proof.
  revert s. induction ops as [|op ops IH]; intros s; simpl.
  - lia.
  - unfold runPollOps in IH. rewrite IH.
    destruct op as [p job|]; simpl.
    + rewrite List.length_app. simpl. lia.
    + lia.
Qed.

Lemma intervals_clearInterval_twice (h : option Z) (s : State) :
  intervals (clearInterval h (clearInterval h s)) = intervals (clearInterval h s).
Proof.
  destruct h as [h|]; simpl; [|reflexivity].
  induction (intervals s) as [|x l IH]; simpl; [reflexivity|].
  destruct (x =? h) eqn:Hx; simpl; [exact IH|]. rewrite Hx. simpl. now f_equal.
Qed.

(** The only place where an interval is cleared: a reply that ends the
    polling clears the handle stored in [state.pollInterval]. *)
Lemma intervals_pollResults_resume (r : Response ResultsData) (s : State) :
  intervals (pollResults_resume r s) =
  if pollEnds r then intervals (clearInterval (pollInterval s) s) else intervals s.
Proof.
  destruct (clearInterval_frame (pollInterval s) s) as (_ & _ & _ & _ & _ & _ & _ & Hp).
  destruct r as [| |data]; simpl; try reflexivity.
  unfold pollEnds. simpl. destruct (job_status data); simpl; try reflexivity.
  destruct (displayResults data _) as [s3|] eqn:Hd.
  - apply displayResults_frame in Hd. rewrite Hd. reflexivity.
  - unfold pollResults_catch. simpl.
    change (pollInterval (set_progressFill_width 100 (clearInterval (pollInterval s) s)))
      with (pollInterval (clearInterval (pollInterval s) s)).
    rewrite Hp.
    pose proof (intervals_clearInterval_twice (pollInterval s) s) as H2.
    destruct (pollInterval s); exact H2.
Qed.

(** C1 as stated fails: two successful submissions in a row leave two
    intervals active. *)
Lemma two_submits_leave_two_timers :
  ~ (List.length
       (intervals (runPollOps [OpSubmit false "job1"; OpSubmit false "job2"] init))
     <= 1)%nat.
Proof. simpl. lia. Qed.

(** C1 (amended). [startPolling] creates an interval and clears none,
    and a new search clears none: a run of successful submissions and new
    searches adds one active interval per submission.  An interval is
    cleared only by a poll that ends the polling (complete, failed, or a
    request error), which clears the handle stored last.  When the user
    acts only on the controls of the step shown and every request is
    answered before the next event, at most one interval is active after
    any sequence of events from the initial state. *)
Theorem one_timer_in_the_gated_flow :
  (forall s : State, intervals (startPolling s) = intervals s ++ [nextHandle s]) /\
  (forall s : State, intervals (newSearchBtn_click s) = intervals s) /\
  (forall (ops : list PollOp) (s : State),
      List.length (intervals (runPollOps ops s)) =
      (List.length (intervals s) + List.length (List.filter isSubmit ops))%nat) /\
  (forall (r : Response ResultsData) (s : State),
      intervals (pollResults_resume r s) =
      if pollEnds r then intervals (clearInterval (pollInterval s) s) else intervals s) /\
  (forall evs : list FlowEvent,
      (List.length (intervals (runFlow evs init)) <= 1)%nat).
Proof.
  split; [|split; [|split; [|split]]].
  - intros s. reflexivity.
  - intros s. reflexivity.
  - exact intervals_runPollOps.
  - exact intervals_pollResults_resume.
  - intros evs.
    assert (H : flowInv (runFlow evs init)).
    { apply flowInv_runFlow. left. reflexivity. }
    destruct H as [H|(_ & h & H & _)]; rewrite H; simpl; lia.
Qed.

(** Why the requests must not overlap.  A job is polled twice before an
    answer arrives and both polls fail; after each failure step 2 is shown
    and the user clicks Find Prices.  Every click acts on the step shown,
    yet when the two submissions are answered two intervals are active. *)
Lemma overlapping_requests_leave_two_timers :
  let s1 := zipInput_input "02139" (continueBtn_click (addToCart "bread" init)) in
  let s2 := submitCart_resume (HttpOk (mkCartData "job1")) (submitCart_start true s1) in
  let s3 := interval_fires 1 s2 in
  let s4 := pollResults_resume HttpNotOk s3 in
  let s5 := submitCart_start true s4 in
  let s6 := pollResults_resume HttpNotOk s5 in
  let s7 := submitCart_start true s6 in
  let s8 := submitCart_resume (HttpOk (mkCartData "job2")) s7 in
  let s9 := submitCart_resume (HttpOk (mkCartData "job3")) s8 in
  currentStep s1 = 2 /\ intervals s3 = [1] /\
  currentStep s4 = 2 /\ intervals s4 = [] /\
  currentStep s6 = 2 /\
  intervals s9 = [2; 3].
Proof. repeat split. Qed.

(** ** The progress indicator *)

Lemma runPoll_snoc (evs : list PollEvent) (e : PollEvent) (s : State) :
  runPoll (evs ++ [e]) s = pollStep e (runPoll evs s).
Proof. unfold runPoll. now rewrite fold_left_app. Qed.


(** What a reply does to the progress. *)
Lemma progress_pollResults_resume (r : Response ResultsData) (s : State) :
  progressFill_width (pollResults_resume r s) =
  if reportsComplete (Reply r) then 100 else progressFill_width s.
Proof.
  destruct (clearInterval_frame (pollInterval s) s) as (_ & _ & _ & _ & _ & Hw & _).
  destruct r as [| |data]; simpl; try exact Hw.
  destruct (job_status data); simpl; try reflexivity; try exact Hw.
  destruct (displayResults data _) as [s3|] eqn:Hd.
  - apply displayResults_frame in Hd. rewrite Hd. reflexivity.
  - unfold pollResults_catch. simpl.
    match goal with |- progressFill_width (clearInterval ?h ?t) = _ =>
      destruct (clearInterval_frame h t) as (_ & _ & _ & _ & _ & Hw' & _); now rewrite Hw'
    end.
Qed.

Lemma pollCount_pollResults_resume (r : Response ResultsData) (s : State) :
  pollCount (pollResults_resume r s) = pollCount s.
Proof.
  destruct (clearInterval_frame (pollInterval s) s) as (_ & _ & _ & _ & _ & _ & Hc & _).
  destruct r as [| |data]; simpl; try exact Hc.
  destruct (job_status data); simpl; try reflexivity; try exact Hc.
  destruct (displayResults data _) as [s3|] eqn:Hd.
  - apply displayResults_frame in Hd. rewrite Hd. exact Hc.
  - unfold pollResults_catch. simpl.
    match goal with |- pollCount (clearInterval ?h ?t) = _ =>
      destruct (clearInterval_frame h t) as (_ & _ & _ & _ & _ & _ & Hc' & _); now rewrite Hc'
    end.
Qed.

Lemma pollInterval_pollResults_resume (r : Response ResultsData) (s : State) :
  pollInterval (pollResults_resume r s) = pollInterval s.
Proof.
  destruct (clearInterval_frame (pollInterval s) s) as (_ & _ & _ & _ & _ & _ & _ & Hp).
  destruct r as [| |data]; simpl; try exact Hp.
  destruct (job_status data); simpl; try reflexivity; try exact Hp.
  destruct (displayResults data _) as [s3|] eqn:Hd.
  - apply displayResults_frame in Hd. rewrite Hd. exact Hp.
  - unfold pollResults_catch. simpl.
    match goal with |- pollInterval (clearInterval ?h ?t) = _ =>
      destruct (clearInterval_frame h t) as (_ & _ & _ & _ & _ & _ & _ & Hp'); now rewrite Hp'
    end.
Qed.

Lemma pollInv_pollStep (h0 : Z) (e : PollEvent) (s : State) :
  pollInv h0 s -> pollInv h0 (pollStep e s).
Proof.
  intros (Hp & Hle & Hact). destruct e as [h|r]; simpl.
  - unfold interval_fires. destruct (existsb _ _) eqn:Hex.
    + destruct Hact as [Hn|(Hi & _)]; [rewrite Hn in Hex; discriminate|].
      repeat split; simpl; [exact Hp | lia | right; split; [exact Hi | reflexivity]].
    + repeat split; assumption.
  - unfold pollInv.
    rewrite pollInterval_pollResults_resume, progress_pollResults_resume,
      pollCount_pollResults_resume, intervals_pollResults_resume.
    split; [exact Hp|]. split; [destruct (reportsComplete _); lia|].
    destruct (pollEnds r) eqn:He.
    + left. apply intervals_clear_stored.
      destruct Hact as [Hn|(Hi & _)]; [left; exact Hn | right; eauto].
    + unfold pollEnds in He. apply orb_false_iff in He. destruct He as [_ He].
      rewrite He. exact Hact.
Qed.

(** The progress is 100 exactly when a reply of the run reported
    [status: "complete"]. *)
Lemma progress_100_iff_complete (s0 : State) (evs : list PollEvent) :
  intervals s0 = [] ->
  pollInv (nextHandle s0) (runPoll evs (startPolling s0)) /\
  (progressFill_width (runPoll evs (startPolling s0)) = 100 <->
   existsb reportsComplete evs = true).
Proof.
  intros H0. induction evs as [|e evs IH] using rev_ind.
  - split.
    + repeat split; simpl; [lia|]. right. rewrite H0. split; reflexivity.
    + simpl. split; discriminate.
  - destruct IH as (Hinv & Hiff). rewrite runPoll_snoc. split.
    + apply pollInv_pollStep, Hinv.
    + rewrite existsb_app. simpl. rewrite orb_false_r.
      destruct Hinv as (_ & Hle & Hact).
      destruct e as [h|r]; simpl.
      * rewrite orb_false_r. unfold interval_fires.
        destruct (existsb (Z.eqb h) _) eqn:Hex; [|exact Hiff].
        destruct Hact as [Hn|(_ & Hw)]; [rewrite Hn in Hex; discriminate|].
        destruct (existsb reportsComplete evs).
        -- destruct Hiff as [_ Hiff]. specialize (Hiff eq_refl). lia.
        -- simpl. split; [lia | discriminate].
      * rewrite progress_pollResults_resume. simpl.
        destruct r as [| |data]; simpl; try (rewrite orb_false_r; exact Hiff).
        destruct (job_status data); simpl; try (rewrite orb_false_r; exact Hiff).
        rewrite orb_true_r. split; reflexivity.
Qed.





(** ** Pending suggestions *)

Lemma pendingSuggestions_addToCart (n : string) (s : State) :
  pendingSuggestions (addToCart n s) = pendingSuggestions s.
Proof.
  unfold addToCart. destruct (existsb _ _); [reflexivity|].
  destruct (_ <=? _)%nat; reflexivity.
Qed.

(** Where [findIndex] finds an id: the entries before have another id, and
    changing or removing the entry found leaves the others in place. *)
Lemma findIndex_hasId_Some (pid : Z) (f : PendingItem -> PendingItem)
  (l : list PendingItem) (i : nat) :
  findIndex (hasId pid) l = Some i ->
  exists l1 a l2,
    l = l1 ++ a :: l2 /\ id a = pid /\
    (forall p, In p l1 -> id p <> pid) /\
    alter f i l = l1 ++ f a :: l2 /\
    delete i l = l1 ++ l2.
Proof.
  revert i. induction l as [|x l IH]; intros i H; simpl in H; [discriminate|].
  destruct (hasId pid x) eqn:Hx.
  - injection H as <-. exists [], x, l. unfold hasId in Hx. apply Z.eqb_eq in Hx.
    repeat split; [exact Hx | intros p []].
  - destruct (findIndex (hasId pid) l) as [j|] eqn:Hj; [|discriminate].
    injection H as <-. destruct (IH j eq_refl) as (l1 & a & l2 & -> & Ha & Hl1 & Halt & Hdel).
    exists (x :: l1), a, l2. repeat split.
    + exact Ha.
    + intros p [<-|Hp]; [|now apply Hl1].
      unfold hasId in Hx. now apply Z.eqb_neq in Hx.
    + simpl. f_equal. exact Halt.
    + simpl. f_equal. exact Hdel.
Qed.

Lemma findIndex_hasId_None (pid : Z) (l : list PendingItem) :
  findIndex (hasId pid) l = None -> forall p, In p l -> id p <> pid.
Proof.
  induction l as [|x l IH]; intros H p Hp; simpl in *; [contradiction|].
  destruct (hasId pid x) eqn:Hx; [discriminate|].
  destruct (findIndex (hasId pid) l); [discriminate|].
  destruct Hp as [<-|Hp]; [|now apply IH].
  unfold hasId in Hx. now apply Z.eqb_neq in Hx.
Qed.

(** Entries seen through their ids.  The completion of a lookup changes
    at most one pending entry, the first with the id of the lookup, and
    keeps its id and text; when no entry has that id the handler changes
    nothing (the state is the one [fetchSuggestions] left).  Clicking a
    suggestion removes at most one entry, the first with the id of the
    card.  Either way every entry with another id stays in the collection
    as it was. *)
Lemma entries_with_another_id_are_kept :
  (forall (pid : Z) (r : Response SuggestionData) (s : State),
      let l := pendingSuggestions s in
      let s' := submitItemForAI_resume pid r s in
      ((forall p, In p l -> id p <> pid) /\
       s' = snd (fetchSuggestions_resume r s) /\ pendingSuggestions s' = l) \/
      (exists l1 a l2 a',
          l = l1 ++ a :: l2 /\ id a = pid /\ (forall p, In p l1 -> id p <> pid) /\
          pendingSuggestions s' = l1 ++ a' :: l2 /\
          id a' = pid /\ originalText a' = originalText a)) /\
  (forall (n : string) (pid : Z) (s : State),
      let l := pendingSuggestions s in
      let s' := suggestionCard_click n (Some pid) s in
      ((forall p, In p l -> id p <> pid) /\ pendingSuggestions s' = l) \/
      (exists l1 a l2,
          l = l1 ++ a :: l2 /\ id a = pid /\ (forall p, In p l1 -> id p <> pid) /\
          pendingSuggestions s' = l1 ++ l2)) /\
  (forall (pid : Z) (r : Response SuggestionData) (n : string) (s : State)
          (b : PendingItem),
      In b (pendingSuggestions s) -> id b <> pid ->
      In b (pendingSuggestions (submitItemForAI_resume pid r s)) /\
      In b (pendingSuggestions (suggestionCard_click n (Some pid) s))).
Proof.
  assert (HA : forall (pid : Z) (r : Response SuggestionData) (s : State),
      let l := pendingSuggestions s in
      let s' := submitItemForAI_resume pid r s in
      ((forall p, In p l -> id p <> pid) /\
       s' = snd (fetchSuggestions_resume r s) /\ pendingSuggestions s' = l) \/
      (exists l1 a l2 a',
          l = l1 ++ a :: l2 /\ id a = pid /\ (forall p, In p l1 -> id p <> pid) /\
          pendingSuggestions s' = l1 ++ a' :: l2 /\
          id a' = pid /\ originalText a' = originalText a)).
  { intros pid r s l s'. subst l s'. unfold submitItemForAI_resume.
    assert (Hfs : exists sugg s1, fetchSuggestions_resume r s = (Returned sugg, s1) /\
                                  pendingSuggestions s1 = pendingSuggestions s).
    { destruct r; simpl; eauto. }
    destruct Hfs as (sugg & s1 & -> & Hps). simpl. unfold updateFound. rewrite Hps.
    destruct (findIndex (hasId pid) (pendingSuggestions s)) as [i|] eqn:Hi.
    - right.
      destruct (findIndex_hasId_Some pid (markComplete sugg) _ i Hi)
        as (l1 & a & l2 & Hl & Ha & Hl1 & Halt & _).
      exists l1, a, l2, (markComplete sugg a). simpl. rewrite Halt. repeat split; auto.
    - left. split; [exact (findIndex_hasId_None pid _ Hi)|]. auto. }
  assert (HB : forall (n : string) (pid : Z) (s : State),
      let l := pendingSuggestions s in
      let s' := suggestionCard_click n (Some pid) s in
      ((forall p, In p l -> id p <> pid) /\ pendingSuggestions s' = l) \/
      (exists l1 a l2,
          l = l1 ++ a :: l2 /\ id a = pid /\ (forall p, In p l1 -> id p <> pid) /\
          pendingSuggestions s' = l1 ++ l2)).
  { intros n pid s l s'. subst l s'. unfold suggestionCard_click, removePendingItem.
    rewrite pendingSuggestions_addToCart.
    destruct (findIndex (hasId pid) (pendingSuggestions s)) as [i|] eqn:Hi.
    - right.
      destruct (findIndex_hasId_Some pid (fun p => p) _ i Hi)
        as (l1 & a & l2 & Hl & Ha & Hl1 & _ & Hdel).
      exists l1, a, l2. simpl. rewrite Hdel. repeat split; auto.
    - left. split; [exact (findIndex_hasId_None pid _ Hi)|].
      apply pendingSuggestions_addToCart. }
  split; [exact HA|]. split; [exact HB|].
  intros pid r n s b Hb Hne. split.
  - destruct (HA pid r s) as [(_ & _ & ->)|(l1 & a & l2 & a' & Hl & Ha & _ & -> & _)];
      [exact Hb|].
    rewrite Hl in Hb. apply in_app_or in Hb. apply in_or_app.
    destruct Hb as [Hb|[<-|Hb]]; [now left | congruence | right; now right].
  - destruct (HB n pid s) as [(_ & ->)|(l1 & a & l2 & Hl & Ha & _ & ->)]; [exact Hb|].
    rewrite Hl in Hb. apply in_app_or in Hb. apply in_or_app.
    destruct Hb as [Hb|[<-|Hb]]; [now left | congruence | now right].
Qed.

(** *** The ids of pending entries *)

(** A run of submissions appends one loading entry per accepted text,
    under the value of [Date.now()] at its submission. *)
Lemma pendingSuggestions_submitAll (subs : list (Z * string)) (s : State) :
  pendingSuggestions (submitAll subs s) =
  pendingSuggestions s ++
  List.map (fun sub => mkPendingItem (fst sub) (snd sub) Loading None) (accepted subs).
Proof.
  revert s. induction subs as [|[now text] subs IH]; intros s; simpl.
  - now rewrite app_nil_r.
  - unfold submitAll in IH. rewrite IH. unfold submitItemForAI_start. simpl.
    destruct (String.length text <? 2)%nat; simpl; [reflexivity|].
    now rewrite <- app_assoc.
Qed.

Lemma StronglySorted_lt_accepted (subs : list (Z * string)) :
  StronglySorted Z.lt (List.map fst subs) ->
  StronglySorted Z.lt (List.map fst (accepted subs)).
Proof.
  induction subs as [|sub subs IH]; simpl; intros H; [constructor|].
  apply StronglySorted_inv in H. destruct H as [Hs Hall].
  destruct (negb _); simpl; [|now apply IH].
  constructor; [now apply IH|].
  rewrite List.Forall_forall in *. intros x Hx. apply Hall.
  apply List.in_map_iff in Hx. destruct Hx as (y & <- & Hy).
  apply List.in_map. unfold accepted in Hy. apply List.filter_In in Hy. tauto.
Qed.

Lemma StronglySorted_lt_NoDup (l : list Z) :
  StronglySorted Z.lt l -> NoDup l.
Proof.
  induction 1 as [|x l Hs IH Hall]; constructor; [|exact IH].
  intros Hin. apply list_elem_of_In in Hin.
  rewrite List.Forall_forall in Hall. specialize (Hall x Hin). lia.
Qed.

(** C9 as stated fails: two texts submitted while [Date.now()] returns
    the same value get the same id. *)
Lemma same_millisecond_same_id :
  ~ NoDup (List.map id
             (pendingSuggestions (submitAll [(1000, "milk"); (1000, "eggs")] init))).
Proof.
  simpl. intros H. apply NoDup_cons_1_1 in H. apply H. left.
Qed.

(** A submission made after the clock was set back gets a smaller id
    than the one before it. *)
Lemma clock_set_back_smaller_id :
  List.map id (pendingSuggestions (submitAll [(1000, "milk"); (990, "eggs")] init))
  = [1000; 990].
Proof. reflexivity. Qed.

Lemma lookup_submitAll (subs : list (Z * string)) (s : State) (k : nat)
  (sub : Z * string) :
  accepted subs !! k = Some sub ->
  pendingSuggestions (submitAll subs s) !! (List.length (pendingSuggestions s) + k)%nat =
  Some (mkPendingItem (fst sub) (snd sub) Loading None).
Proof.
  intros Hk. rewrite pendingSuggestions_submitAll.
  rewrite lookup_app_r by (change (@length PendingItem) with (@List.length PendingItem); lia).
  change (@length PendingItem) with (@List.length PendingItem).
  replace (List.length (pendingSuggestions s) + k - List.length (pendingSuggestions s))%nat
    with k by lia.
  change (List.map ?f ?l) with (f <$> l). now rewrite list_lookup_fmap, Hk.
Qed.

(** C9 (amended).  The id of a pending entry is the value of [Date.now()]
    at its submission: a run of submissions appends to the pending
    entries, in submission order, one loading entry per text of 2
    characters or more, under the clock value of its submission.  Of two
    such submissions, the later one gets the greater id, distinct from the
    other, whenever its clock value is strictly greater, and the same id
    when the clock values are equal.  When the clock values of a whole
    run are strictly increasing, so are the ids of its entries, which are
    then pairwise distinct. *)
Theorem pending_ids_are_clock_values (subs : list (Z * string)) (s : State) :
  let l := pendingSuggestions (submitAll subs s) in
  let before := List.length (pendingSuggestions s) in
  l = pendingSuggestions s ++
      List.map (fun sub => mkPendingItem (fst sub) (snd sub) Loading None) (accepted subs) /\
  (forall (i j : nat) (si sj : Z * string),
      (i < j)%nat -> accepted subs !! i = Some si -> accepted subs !! j = Some sj ->
      exists pi pj,
        l !! (before + i)%nat = Some pi /\ l !! (before + j)%nat = Some pj /\
        id pi = fst si /\ originalText pi = snd si /\
        id pj = fst sj /\ originalText pj = snd sj /\
        (fst si < fst sj -> id pi < id pj /\ id pi <> id pj) /\
        (fst si = fst sj -> id pi = id pj)) /\
  (pendingSuggestions s = [] -> StronglySorted Z.lt (List.map fst subs) ->
   StronglySorted Z.lt (List.map id l) /\ NoDup (List.map id l)).
Proof.
  cbv zeta. split; [apply pendingSuggestions_submitAll|]. split.
  - intros i j si sj Hij Hi Hj.
    exists (mkPendingItem (fst si) (snd si) Loading None),
           (mkPendingItem (fst sj) (snd sj) Loading None).
    split; [now apply lookup_submitAll|]. split; [now apply lookup_submitAll|].
    simpl. repeat split; try assumption; lia.
  - intros Hnil Hs. rewrite pendingSuggestions_submitAll, Hnil. simpl.
    rewrite !List.map_map. simpl.
    assert (Hsorted : StronglySorted Z.lt (List.map fst (accepted subs)))
      by now apply StronglySorted_lt_accepted.
    split; [exact Hsorted | now apply StronglySorted_lt_NoDup].
Qed.

Lemma pending_ids_are_clock_values_witness :
  let l := pendingSuggestions
             (submitAll [(1000, "milk"); (990, "eggs"); (1001, "a"); (1005, "tea")] init) in
  exists pi pj,
    l !! 0%nat = Some pi /\ l !! 2%nat = Some pj /\
    originalText pi = "milk" /\ originalText pj = "tea" /\ id pi < id pj.
Proof.
  intros l.
  destruct (pending_ids_are_clock_values
              [(1000, "milk"); (990, "eggs"); (1001, "a"); (1005, "tea")] init)
    as (_ & H & _).
  destruct (H 0%nat 2%nat (1000, "milk") (1005, "tea")) as
    (pi & pj & Hi & Hj & _ & Hti & _ & Htj & Hlt & _); [lia | reflexivity | reflexivity |].
  exists pi, pj. split; [exact Hi|]. split; [exact Hj|]. split; [exact Hti|].
  split; [exact Htj|]. apply Hlt. simpl. lia.
Defined.

(** *** A failed lookup *)

(** No response puts an entry in the error state: an entry that is in it
    after the completion of a lookup was in it before. *)
Lemma submitItemForAI_resume_never_marks_error
  (pid : Z) (r : Response SuggestionData) (s : State) (i : nat) (p' : PendingItem) :
  pendingSuggestions (submitItemForAI_resume pid r s) !! i = Some p' ->
  status p' = Error ->
  pendingSuggestions s !! i = Some p'.
Proof.
  unfold submitItemForAI_resume.
  assert (Hfs : exists sugg s1, fetchSuggestions_resume r s = (Returned sugg, s1) /\
                                pendingSuggestions s1 = pendingSuggestions s).
  { destruct r; simpl; eauto. }
  destruct Hfs as (sugg & s1 & -> & Hps). unfold updateFound. rewrite Hps.
  destruct (findIndex (hasId pid) (pendingSuggestions s)) as [j|]; simpl;
    [|now rewrite Hps].
  intros Hl Hst. destruct (decide (j = i)) as [->|Hne].
  - rewrite list_lookup_alter_eq in Hl.
    destruct (pendingSuggestions s !! i); simpl in Hl; [|discriminate].
    injection Hl as <-. discriminate Hst.
  - now rewrite list_lookup_alter_ne in Hl.
Qed.

(** C2, at a failed lookup.  The text "milk" is submitted at clock value
    1000 and its request is answered with a status that is not 2xx: the
    entry ends in the complete state without suggestions, and its card is
    blank, with no Retry button. *)
Theorem failed_lookup_is_marked_complete :
  let s1 := submitItemForAI_start 1000 "milk" init in
  let s2 := submitItemForAI_resume 1000 HttpNotOk s1 in
  pendingSuggestions s1 = [mkPendingItem 1000 "milk" Loading None] /\
  pendingSuggestions s2 = [mkPendingItem 1000 "milk" Complete None] /\
  renderPendingSuggestions s2 = [BlankCard] /\
  toasts s2 = ["Failed to get AI suggestions. Try again!"].
Proof. repeat split. Qed.

(** ** The best price of an item *)

Lemma insertByPrice_Permutation (x : Product) (l : list Product) :
  Permutation (x :: l) (insertByPrice x l).
Proof.
  induction l as [|y l IH]; simpl; [reflexivity|].
  destruct (price y ?= price x)%Q; try reflexivity.
  transitivity (y :: x :: l); [apply perm_swap | apply perm_skip, IH].
Qed.

Lemma sortByPrice_Permutation (l : list Product) :
  Permutation l (sortByPrice l).
Proof.
  induction l as [|x l IH]; simpl; [reflexivity|].
  transitivity (x :: sortByPrice l); [apply perm_skip, IH | apply insertByPrice_Permutation].
Qed.

Lemma insertByPrice_sorted (x : Product) (l : list Product) :
  StronglySorted priceLe l -> StronglySorted priceLe (insertByPrice x l).
Proof.
  induction 1 as [|y l Hs IH Hall]; simpl.
  - repeat constructor.
  - destruct (price y ?= price x)%Q eqn:Hc.
    + apply Qeq_alt in Hc. constructor; [now constructor|].
      constructor; [unfold priceLe; rewrite Hc; apply Qle_refl|].
      eapply List.Forall_impl; [|exact Hall]. unfold priceLe. intros z Hz.
      now rewrite <- Hc.
    + apply Qlt_alt in Hc. constructor; [exact IH|].
      eapply Permutation_Forall; [apply insertByPrice_Permutation|].
      constructor; [now apply Qlt_le_weak | exact Hall].
    + apply Qgt_alt in Hc. constructor; [now constructor|].
      constructor; [now apply Qlt_le_weak|].
      eapply List.Forall_impl; [|exact Hall]. unfold priceLe. intros z Hz.
      apply Qle_trans with (price y); [now apply Qlt_le_weak | exact Hz].
Qed.

Lemma sortByPrice_sorted (l : list Product) :
  StronglySorted priceLe (sortByPrice l).
Proof.
  induction l as [|x l IH]; simpl; [constructor | now apply insertByPrice_sorted].
Qed.

(** Sorting keeps the products of one price in their original order. *)
Lemma filter_hasPrice_insertByPrice (bp : Q) (x : Product) (l : list Product) :
  List.filter (hasPrice bp) (insertByPrice x l) = List.filter (hasPrice bp) (x :: l).
Proof.
  induction l as [|y l IH]; [reflexivity|].
  simpl insertByPrice. destruct (price y ?= price x)%Q eqn:Hc; try reflexivity.
  apply Qlt_alt in Hc. simpl. simpl in IH. rewrite IH.
  destruct (hasPrice bp y) eqn:Hy, (hasPrice bp x) eqn:Hx; try reflexivity.
  unfold hasPrice in Hx, Hy. apply Qeq_bool_iff in Hx, Hy.
  rewrite Hx, Hy in Hc. now apply Qlt_irrefl in Hc.
Qed.

Lemma filter_hasPrice_sortByPrice (bp : Q) (l : list Product) :
  List.filter (hasPrice bp) (sortByPrice l) = List.filter (hasPrice bp) l.
Proof.
  induction l as [|x l IH]; [reflexivity|].
  simpl sortByPrice. rewrite filter_hasPrice_insertByPrice. simpl. now rewrite IH.
Qed.

(** The first product after sorting is one of the products, and none is
    cheaper. *)
Lemma sortByPrice_head (products : list Product) :
  products <> [] ->
  exists p0 rest,
    sortByPrice products = p0 :: rest /\ In p0 products /\
    forall q, In q products -> (price p0 <= price q)%Q.
Proof.
  intros Hne. pose proof (sortByPrice_Permutation products) as Hperm.
  pose proof (sortByPrice_sorted products) as Hs.
  destruct (sortByPrice products) as [|p0 rest].
  - apply Permutation_sym, Permutation_nil in Hperm. contradiction.
  - exists p0, rest. split; [reflexivity|]. split.
    + eapply Permutation_in; [apply Permutation_sym, Hperm | now left].
    + intros q Hq. eapply Permutation_in in Hq; [|exact Hperm].
      apply StronglySorted_inv in Hs. destruct Hs as [_ Hall].
      destruct Hq as [<-|Hq]; [apply Qle_refl|].
      rewrite List.Forall_forall in Hall. now apply Hall.
Qed.

(** C6. For a non-empty product list: the products are sorted by
    ascending price; the best price is the lowest one; the best-price
    group is made of all the products at that price, in the order the
    server returned them, and of no product above it; a group of one is
    shown as a single row, and of a larger group the first product is
    shown and the others are the hidden rows behind the toggle, whose
    count is the size of the group minus one.  For
    [{ milk: [A@3.50, B@3.50, C@4.00] }] the group is A then B, the count
    is 1 and C is not in the group. *)
Theorem best_price_group_is_the_cheapest_in_server_order :
  (forall (cartIndex : nat) (products : list Product),
      products <> [] ->
      let sortedProducts := sortByPrice products in
      StronglySorted priceLe sortedProducts /\
      Permutation products sortedProducts /\
      exists (p0 : Product) (rest : list Product) (first : Product) (others : list Product),
        let bestPrice := price p0 in
        let group := first :: others in
        sortedProducts = p0 :: rest /\
        In p0 products /\
        (forall q, In q products -> (bestPrice <= price q)%Q) /\
        bestPriceProducts sortedProducts bestPrice = group /\
        List.filter (hasPrice bestPrice) products = group /\
        (forall q, In q products -> (In q group <-> (price q == bestPrice)%Q)) /\
        (forall q, In q products -> (~ In q group <-> (bestPrice < price q)%Q)) /\
        otherProducts sortedProducts bestPrice =
          List.filter (fun q => negb (hasPrice bestPrice q)) sortedProducts /\
        renderBestPrice cartIndex products =
          Some (match others with
                | [] => SingleBest first bestPrice
                | _ :: _ =>
                    MultiBest first bestPrice (List.length group - 1) cartIndex others
                end)) /\
  renderCard milkResults 0 (mkCartItem "milk") =
    Some (ProductsCard "milk" (MultiBest productA 3.50%Q 1 0 [productB])) /\
  bestPriceProducts (sortByPrice [productA; productB; productC]) 3.50%Q =
    [productA; productB] /\
  otherProducts (sortByPrice [productA; productB; productC]) 3.50%Q = [productC].
Proof.
  split; [|repeat split; vm_compute; reflexivity].
  intros cartIndex products Hne sortedProducts. subst sortedProducts.
  split; [apply sortByPrice_sorted|]. split; [apply sortByPrice_Permutation|].
  destruct (sortByPrice_head products Hne) as (p0 & rest & Hsort & Hin & Hmin).
  assert (Hgroup : List.filter (hasPrice (price p0)) products <> []).
  { intros Hnil.
    assert (Hp0 : In p0 (List.filter (hasPrice (price p0)) products)).
    { apply List.filter_In. split; [exact Hin|]. apply Qeq_bool_iff. reflexivity. }
    rewrite Hnil in Hp0. contradiction. }
  destruct (List.filter (hasPrice (price p0)) products) as [|first others] eqn:Hf;
    [contradiction|].
  assert (Hbest : bestPriceProducts (sortByPrice products) (price p0) = first :: others).
  { unfold bestPriceProducts. now rewrite filter_hasPrice_sortByPrice. }
  assert (Hiff : forall q, In q products ->
                   (In q (first :: others) <-> (price q == price p0)%Q)).
  { intros q Hq. rewrite <- Hf, List.filter_In. unfold hasPrice.
    rewrite Qeq_bool_iff. tauto. }
  exists p0, rest, first, others. cbv zeta.
  repeat split; try assumption.
  - intros Hq. now apply Hiff.
  - intros Heq. now apply Hiff.
  - intros Hnot. specialize (Hmin q H). apply Qle_lteq in Hmin.
    destruct Hmin as [Hlt|Heq]; [exact Hlt|].
    exfalso. apply Hnot, Hiff; [exact H | now symmetry].
  - intros Hlt Hq. apply Hiff in Hq; [|exact H].
    rewrite Hq in Hlt. now apply Qlt_irrefl in Hlt.
  - assert (Hhead : head (sortByPrice products) = Some p0) by now rewrite Hsort.
    unfold renderBestPrice. cbv zeta. rewrite Hhead. simpl. rewrite Hbest.
    destruct others as [|o os]; reflexivity.
Qed.

Lemma best_price_group_is_the_cheapest_in_server_order_witness :
  exists view,
    renderBestPrice 3 [productC; productA; productB] = Some view /\
    view = MultiBest productA 3.50%Q 1 3 [productB].
Proof.
  destruct best_price_group_is_the_cheapest_in_server_order as (H & _).
  destruct (H 3%nat [productC; productA; productB] ltac:(discriminate))
    as (_ & _ & p0 & rest & first & others & Hs & _ & _ & _ & Hg & _ & _ & _ & Hr).
  eexists. split; [exact Hr|].
  injection Hs as <- _. injection Hg as <- <-. reflexivity.
Defined.

(** ** The results view *)

Lemma NoDup_map_filter {A B : Type} (g : A -> B) (f : A -> bool) (l : list A) :
  NoDup (List.map g l) -> NoDup (List.map g (List.filter f l)).
Proof.
  induction l as [|x l IH]; simpl; intros H; [constructor|].
  apply NoDup_cons in H. destruct H as [Hx Hl].
  destruct (f x); simpl; [|now apply IH].
  apply NoDup_cons. split; [|now apply IH].
  intros Hin. apply Hx. apply list_elem_of_In in Hin. apply list_elem_of_In.
  apply List.in_map_iff in Hin. destruct Hin as (y & Hy & Hin).
  apply List.in_map_iff. exists y. split; [exact Hy|].
  apply List.filter_In in Hin. tauto.
Qed.

Lemma filter_nonEmpty_bool (l : list (string * list Product)) :
  List.filter (fun kv => (0 <? List.length (snd kv))%nat) l =
  filter (fun kv => snd kv ≠ []) l.
Proof.
  induction l as [|[k v] l IH]; [reflexivity|].
  rewrite filter_cons. simpl. rewrite IH.
  destruct v; reflexivity.
Qed.

(** The number of names kept by [itemsWithResults] is the number of
    entries of the mapping with at least one product. *)
Lemma length_itemsWithResults (res : gmap string (list Product)) :
  List.length (itemsWithResults res) = size (nonEmptyEntries res).
Proof.
  unfold itemsWithResults, nonEmptyEntries.
  rewrite List.length_map, map_filter_alt, map_size_list_to_map.
  - now rewrite filter_nonEmpty_bool.
  - rewrite <- filter_nonEmpty_bool. apply NoDup_map_filter.
    apply NoDup_fst_map_to_list.
Qed.

Lemma lookupResults_ProductList (res : gmap string (list Product)) (n : string)
  (l : list Product) :
  lookupResults res n = ProductList l <->
  res !! n = Some l \/ (res !! n = None /\ inheritedLength n = None /\ l = []).
Proof.
  unfold lookupResults. destruct (res !! n) as [l'|].
  - split; [intros H; injection H as ->; now left|].
    intros [H|(H & _)]; [now injection H as -> | discriminate].
  - destruct (inheritedLength n); split.
    + discriminate.
    + intros [H|(_ & H & _)]; discriminate.
    + intros H. injection H as <-. right. auto.
    + intros [H|(_ & _ & ->)]; [discriminate | reflexivity].
Qed.

Lemma lookupResults_nonEmpty (res : gmap string (list Product)) (n : string) :
  (exists p ps, lookupResults res n = ProductList (p :: ps)) <->
  n ∈ dom (nonEmptyEntries res).
Proof.
  unfold nonEmptyEntries. rewrite elem_of_dom. split.
  - intros (p & ps & H). apply lookupResults_ProductList in H.
    destruct H as [H|(_ & _ & H)]; [|discriminate].
    exists (p :: ps). apply map_lookup_filter_Some. split; [exact H | discriminate].
  - intros [l Hl]. apply map_lookup_filter_Some in Hl. destruct Hl as [Hl Hne].
    simpl in Hne. destruct l as [|p ps]; [congruence|].
    exists p, ps. apply lookupResults_ProductList. now left.
Qed.

Lemma size_nonEmptyEntries_cart (res : gmap string (list Product)) (items : list CartItem) :
  NoDup (List.map name items) ->
  (forall n, n ∈ dom (nonEmptyEntries res) -> In n (List.map name items)) ->
  size (nonEmptyEntries res) = List.length (cartItemsFound res items).
Proof.
  intros Hnd Hsub.
  rewrite <- (size_dom (D:=gset string)).
  rewrite <- (List.length_map name (cartItemsFound res items)).
  rewrite <- (size_list_to_set (C:=gset string));
    [|unfold cartItemsFound; now apply NoDup_map_filter].
  f_equal. apply set_eq. intros n. rewrite elem_of_list_to_set, list_elem_of_In.
  unfold cartItemsFound. rewrite List.in_map_iff. split.
  - intros Hn. specialize (Hsub n Hn). apply List.in_map_iff in Hsub.
    destruct Hsub as (c & <- & Hc). exists c. split; [reflexivity|].
    apply List.filter_In. split; [exact Hc|].
    apply lookupResults_nonEmpty in Hn. destruct Hn as (p & ps & ->). reflexivity.
  - intros (c & <- & Hc). apply List.filter_In in Hc. destruct Hc as [_ Hc].
    apply lookupResults_nonEmpty.
    destruct (lookupResults res (name c)) as [[|p ps]|len]; try discriminate. eauto.
Qed.

Lemma renderBestPrice_total (cartIndex : nat) (products : list Product) :
  products <> [] -> exists view, renderBestPrice cartIndex products = Some view.
Proof.
  intros Hne.
  destruct (sortByPrice_head products Hne) as (p0 & rest & Hsort & Hin & _).
  assert (Hhead : head (sortByPrice products) = Some p0) by now rewrite Hsort.
  assert (Hp0 : In p0 (bestPriceProducts (sortByPrice products) (price p0))).
  { unfold bestPriceProducts. rewrite filter_hasPrice_sortByPrice.
    apply List.filter_In. split; [exact Hin|]. apply Qeq_bool_iff. reflexivity. }
  unfold renderBestPrice. cbv zeta. rewrite Hhead. simpl.
  destruct (bestPriceProducts (sortByPrice products) (price p0)) as [|b bs];
    [contradiction|].
  destruct bs; simpl; eauto.
Qed.

(** The card of a cart item whose lookup gives a product list: the
    placeholder for the empty list, and otherwise the populated card with
    the best-price block of that list. *)
Lemma renderCard_ProductList (res : gmap string (list Product)) (cartIndex : nat)
  (cartItem : CartItem) (l : list Product) :
  lookupResults res (name cartItem) = ProductList l ->
  (l = [] -> renderCard res cartIndex cartItem = Some (NoProductsCard (name cartItem))) /\
  (l <> [] ->
   exists best,
     renderBestPrice cartIndex l = Some best /\
     renderCard res cartIndex cartItem = Some (ProductsCard (name cartItem) best)).
Proof.
  intros Hl. unfold renderCard. rewrite Hl. split.
  - intros ->. reflexivity.
  - intros Hne. destruct (renderBestPrice_total cartIndex l Hne) as [best Hb].
    exists best. split; [exact Hb|]. rewrite Hb.
    destruct l; [contradiction | reflexivity].
Qed.

(** Building a card throws exactly for a name without an entry whose
    inherited value has a [.length] other than 0. *)
Lemma renderCard_None (res : gmap string (list Product)) (cartIndex : nat)
  (cartItem : CartItem) :
  renderCard res cartIndex cartItem = None <->
  exists len, lookupResults res (name cartItem) = InheritedValue len /\ len <> Some 0%nat.
Proof.
  unfold renderCard. destruct (lookupResults res (name cartItem)) as [l|len] eqn:Hl.
  - split.
    + intros H. exfalso. destruct l as [|p ps]; [discriminate|].
      destruct (renderBestPrice_total cartIndex (p :: ps)) as [best Hb]; [discriminate|].
      simpl in H. rewrite Hb in H. discriminate H.
    + intros (len & H & _). discriminate H.
  - split.
    + intros H. exists len. split; [reflexivity|].
      destruct len as [[|k]|]; [discriminate H | discriminate | discriminate].
    + intros (len' & H & Hne). injection H as <-.
      destruct len as [[|k]|]; [contradiction | reflexivity | reflexivity].
Qed.

(** C7 as stated fails.  With the cart milk and results holding bread
    only, the card of milk is the placeholder and no cart item has a
    product, yet the items-found count is 1: it counts the entries of the
    results.  With the cart milk, constructor and results holding milk
    only, the lookup of constructor finds the function every object
    inherits and [displayResults] throws. *)
Lemma items_found_counts_the_entries_of_the_results :
  (exists s',
      displayResults breadOnly (addAll ["milk"] init) = Some s' /\
      resultsTable (resultsView s') = [NoProductsCard "milk"] /\
      itemsFoundCount (resultsView s') <>
        List.length (cartItemsFound (default ∅ (results breadOnly))
                       (cart (addAll ["milk"] init)))) /\
  displayResults milkOnly (addAll ["milk"; "constructor"] init) = None.
Proof.
  split.
  - eexists. split; [vm_compute; reflexivity|]. split; [reflexivity|].
    vm_compute. discriminate.
  - vm_compute. reflexivity.
Qed.

(** C7 (amended).  The lookup of a name gives the entry of the results
    mapping under exactly that name, and the empty list for a name that
    has no entry and is not a property every object inherits.  For a cart
    whose names all look up to a product list, [displayResults] returns
    and the results table has one card per cart item, in cart order: the
    "No products found" card for an empty list, and otherwise the
    populated card with the best-price block of that list.  The
    items-found count is the number of entries of the results mapping with
    a non-empty list; it is the number of cart items with a non-empty list
    when the cart names are distinct and those entries are all names of
    the cart.  The total is the size of the cart.  For the cart milk, eggs
    and results holding milk only: a populated card for milk, a
    placeholder for eggs, items found 1, total 2. *)
Theorem results_view_has_one_card_per_cart_item :
  (forall (res : gmap string (list Product)) (n : string),
      (forall l, res !! n = Some l -> lookupResults res n = ProductList l) /\
      (res !! n = None -> inheritedLength n = None ->
       lookupResults res n = ProductList [])) /\
  (forall (data : ResultsData) (s : State),
      let res := default ∅ (results data) in
      (forall c, In c (cart s) -> exists l, lookupResults res (name c) = ProductList l) ->
      exists s',
        let table := resultsTable (resultsView s') in
        displayResults data s = Some s' /\
        List.length table = List.length (cart s) /\
        (forall (i : nat) (c : CartItem) (l : list Product),
            cart s !! i = Some c ->
            lookupResults res (name c) = ProductList l ->
            (l = [] -> table !! i = Some (NoProductsCard (name c))) /\
            (l <> [] ->
             exists best,
               renderBestPrice i l = Some best /\
               table !! i = Some (ProductsCard (name c) best))) /\
        itemsFoundCount (resultsView s') = size (nonEmptyEntries res) /\
        totalItems (resultsView s') = List.length (cart s) /\
        (NoDup (cartNames s) ->
         (forall n, n ∈ dom (nonEmptyEntries res) -> In n (cartNames s)) ->
         itemsFoundCount (resultsView s') = List.length (cartItemsFound res (cart s)))) /\
  (exists s',
      displayResults milkOnly (addAll ["milk"; "eggs"] init) = Some s' /\
      resultsTable (resultsView s') =
        [ProductsCard "milk" (MultiBest productA 3.50%Q 1 0 [productB]);
         NoProductsCard "eggs"] /\
      itemsFoundCount (resultsView s') = 1%nat /\
      totalItems (resultsView s') = 2%nat).
Proof.
  split; [|split].
  - intros res n. split.
    + intros l Hl. apply lookupResults_ProductList. now left.
    + intros Hn Hi. apply lookupResults_ProductList. right. auto.
  - intros data s res Hall. unfold displayResults. cbv zeta. fold res.
    destruct (mapM (fun ic => renderCard res ic.1 ic.2) (imap pair (cart s)))
      as [cards|] eqn:Hm.
    + apply mapM_Some in Hm. eexists. split; [reflexivity|]. simpl.
      split; [|split; [|split; [|split]]].
      * apply Forall2_length in Hm. now rewrite length_imap in Hm.
      * intros i c l Hc Hl.
        assert (Hi : imap pair (cart s) !! i = Some (i, c))
          by now rewrite list_lookup_imap, Hc.
        destruct (Forall2_lookup_l _ _ _ _ _ Hm Hi) as (card & Hcard & Hr).
        simpl in Hr.
        destruct (renderCard_ProductList res i c l Hl) as (Hempty & Hfull).
        split.
        -- intros He. rewrite (Hempty He) in Hr. injection Hr as <-. exact Hcard.
        -- intros Hne. destruct (Hfull Hne) as (best & Hb & Hrc).
           exists best. split; [exact Hb|]. rewrite Hrc in Hr.
           injection Hr as <-. exact Hcard.
      * fold res. apply length_itemsWithResults.
      * reflexivity.
      * intros Hnd Hsub. fold res. rewrite length_itemsWithResults.
        now apply size_nonEmptyEntries_cart.
    + exfalso. apply mapM_None_1, Exists_exists in Hm.
      destruct Hm as ([i c] & Hin & Hnone). simpl in Hnone.
      apply renderCard_None in Hnone. destruct Hnone as (len & Hlen & _).
      apply elem_of_lookup_imap in Hin. destruct Hin as (j & c' & Heq & Hc').
      injection Heq as -> ->.
      destruct (Hall c') as [l Hl].
      { apply list_elem_of_In. eapply list_elem_of_lookup_2. exact Hc'. }
      rewrite Hl in Hlen. discriminate Hlen.
  - eexists. split; [vm_compute; reflexivity|]. repeat split.
Qed.

Lemma results_view_has_one_card_per_cart_item_witness :
  let s := addAll ["milk"; "eggs"] init in
  exists s',
    displayResults milkOnly s = Some s' /\
    itemsFoundCount (resultsView s') =
      List.length (cartItemsFound milkResults (cart s)).
Proof.
  intros s.
  destruct results_view_has_one_card_per_cart_item as (_ & H & _).
  assert (Hall : forall c, In c (cart s) ->
             exists l, lookupResults (default ∅ (results milkOnly)) (name c) = ProductList l).
  { intros c [<-|[<-|[]]]; eexists; vm_compute; reflexivity. }
  destruct (H milkOnly s Hall) as (s' & Hd & _ & _ & _ & _ & Hc).
  exists s'. split; [exact Hd|]. apply Hc.
  - apply (cartOk_addAll ["milk"; "eggs"] init).
    split; [constructor | simpl; unfold CONFIG.MAX_ITEMS; lia].
  - intros n Hn. change (In n ["milk"; "eggs"]).
    destruct (decide (n = "milk")) as [->|Hne]; [now left|].
    exfalso. apply lookupResults_nonEmpty in Hn. destruct Hn as (p & ps & Hn).
    apply lookupResults_ProductList in Hn.
    destruct Hn as [Hn|(_ & _ & Hn)]; [|discriminate].
    simpl in Hn. unfold milkResults in Hn.
    rewrite lookup_singleton_ne in Hn by congruence. discriminate Hn.
Defined.

(** * Further properties of the script *)

(** ** Cart operations *)

Lemma cart_removeFromCart (index : nat) (s : State) :
  cart (removeFromCart index s) = delete index (cart s).
Proof. unfold removeFromCart. simpl. now rewrite delete_take_drop. Qed.

Lemma cartOk_removeFromCart (index : nat) (s : State) :
  cartOk s -> cartOk (removeFromCart index s).
Proof.
  intros [Hnd Hlen]. unfold cartOk, cartNames. rewrite cart_removeFromCart. split.
  - change (NoDup (name <$> delete index (cart s))). rewrite list_fmap_delete.
    eapply sublist_NoDup; [exact Hnd | apply sublist_delete].
  - pose proof (sublist_length _ _ (sublist_delete (cart s) index)) as Hd.
    change (@length CartItem) with (@List.length CartItem) in Hd. lia.
Qed.

Lemma cartOk_runCartOps (ops : list CartOp) (s : State) :
  cartOk s -> cartOk (runCartOps ops s).
Proof.
  revert s. induction ops as [|op ops IH]; intros s Hs; simpl; [exact Hs|].
  apply IH. destruct op as [n|index|[|]]; simpl.
  - now apply cartOk_addToCart.
  - now apply cartOk_removeFromCart.
  - split; [constructor | simpl; lia].
  - exact Hs.
Qed.

(** Whatever names are added, rows removed and clearings confirmed or
    declined, in any order, the names in the cart stay pairwise distinct
    and there are never more than 10. *)
Theorem cart_invariant_under_all_operations (ops : list CartOp) :
  NoDup (cartNames (runCartOps ops init)) /\
  (List.length (cart (runCartOps ops init)) <= 10)%nat.
Proof.
  apply (cartOk_runCartOps ops init). split; [constructor | simpl; lia].
Qed.

(** Removing a row takes out the item at that position and keeps the
    others in order; past the end of the cart nothing is removed, though
    the notice "Removed from cart" is shown all the same. *)
Theorem removeFromCart_at_and_beyond_the_end (index : nat) (s : State) :
  toasts (removeFromCart index s) = toasts s ++ ["Removed from cart"] /\
  ((index < List.length (cart s))%nat ->
   exists before item after,
     cart s = before ++ item :: after /\ List.length before = index /\
     cart (removeFromCart index s) = before ++ after) /\
  ((List.length (cart s) <= index)%nat ->
   cart (removeFromCart index s) = cart s).
Proof.
  split; [reflexivity|]. rewrite cart_removeFromCart. split.
  - intros Hlt. destruct (lookup_lt_is_Some_2 (cart s) index Hlt) as [item Hitem].
    exists (take index (cart s)), item, (drop (S index) (cart s)).
    split; [now rewrite take_drop_middle|].
    split; [rewrite length_take; change (@length CartItem) with (@List.length CartItem); lia|].
    apply delete_take_drop.
  - intros Hge. rewrite delete_take_drop.
    rewrite take_ge by exact Hge. rewrite drop_ge by (change (@length CartItem) with (@List.length CartItem); lia).
    apply app_nil_r.
Qed.

Lemma removeFromCart_at_and_beyond_the_end_witness :
  cart (removeFromCart 5 (addAll ["milk"; "eggs"] init)) =
  [mkCartItem "milk"; mkCartItem "eggs"].
Proof.
  destruct (removeFromCart_at_and_beyond_the_end 5 (addAll ["milk"; "eggs"] init))
    as (_ & _ & H).
  rewrite H; [reflexivity | simpl; lia].
Defined.

(** Adding a new name to a cart with room and then removing the last row
    gives back the cart. *)
Theorem add_then_remove_last_restores_cart (n : string) (s : State) :
  ~ In n (cartNames s) -> (List.length (cart s) < 10)%nat ->
  cart (removeFromCart (List.length (cart s)) (addToCart n s)) = cart s.
Proof.
  intros Hn Hlen. rewrite cart_removeFromCart, cart_addToCart.
  destruct (existsb _ (cart s)) eqn:Hex.
  - apply existsb_name_In in Hex. contradiction.
  - apply Nat.leb_gt in Hlen. unfold CONFIG.MAX_ITEMS. rewrite Hlen.
    rewrite delete_take_drop, take_app_length.
    rewrite drop_app_ge by (change (@length CartItem) with (@List.length CartItem); lia).
    change (@length CartItem) with (@List.length CartItem).
    replace (S (List.length (cart s)) - List.length (cart s))%nat with 1%nat by lia.
    simpl. apply app_nil_r.
Qed.

Lemma add_then_remove_last_restores_cart_witness :
  cart (removeFromCart 1 (addToCart "eggs" (addToCart "milk" init))) =
  [mkCartItem "milk"].
Proof.
  apply (add_then_remove_last_restores_cart "eggs" (addToCart "milk" init)).
  - simpl. intros [H|[]]. discriminate H.
  - simpl. lia.
Defined.

(** ** The cart view *)

Lemma imap_rows_offset (k : nat) (l : list CartItem) :
  List.map fst (imap (fun index item => (name item, (k + index)%nat)) l) = List.map name l /\
  List.map snd (imap (fun index item => (name item, (k + index)%nat)) l) = seq k (List.length l).
Proof.
  revert k. induction l as [|c l IH]; intros k; [split; reflexivity|].
  simpl. rewrite Nat.add_0_r.
  destruct (IH (S k)) as [IH1 IH2].
  assert (Hext : imap ((fun index item => (name item, (k + index)%nat)) ∘ S) l =
                 imap (fun index item => (name item, (S k + index)%nat)) l).
  { apply imap_ext. intros i x _. simpl. f_equal. lia. }
  rewrite Hext, IH1, IH2. split; reflexivity.
Qed.

Lemma delete_NoDup_names (names : list string) (index : nat) (n m : string) :
  names !! index = Some n -> NoDup names ->
  (In m (delete index names) <-> In m names /\ m <> n).
Proof.
  intros Hn Hnd. rewrite delete_take_drop.
  rewrite <- (take_drop_middle names index n Hn) in Hnd at 1.
  rewrite <- (take_drop_middle names index n Hn) at 3.
  apply NoDup_app in Hnd. destruct Hnd as (_ & Hdisj & Hnd).
  apply NoDup_cons in Hnd. destruct Hnd as (Hna & _).
  rewrite <- !list_elem_of_In, !elem_of_app, elem_of_cons. split.
  - intros [Hm|Hm].
    + split; [now left|]. intros ->. apply (Hdisj n Hm). now left.
    + split; [right; now right|]. intros ->. contradiction.
  - intros [[Hm|[->|Hm]] Hne]; [now left | contradiction | now right].
Qed.

(** The rows [renderCart] writes are the names of the cart in order, each
    with its position as the index of its remove button; the placeholder
    is written, the continue button disabled and the clear button hidden
    exactly for the empty cart.  Clicking the remove button of the row of
    a name removes the item at that row, and, names being distinct, that
    name and no other. *)
Theorem renderCart_rows_and_their_remove_buttons (s : State) :
  (cartItems_view (renderCart s) = EmptyCartView <-> cart s = []) /\
  (continueBtn_disabled (renderCart s) = true <-> cart s = []) /\
  (clearCartBtn_shown (renderCart s) = false <-> cart s = []) /\
  (forall rows, cartItems_view (renderCart s) = CartRows rows ->
     List.map fst rows = cartNames s /\
     List.map snd rows = seq 0 (List.length (cart s))) /\
  (forall rows n index,
     cartItems_view (renderCart s) = CartRows rows -> In (n, index) rows ->
     cart s !! index = Some (mkCartItem n) /\
     cartNames (removeFromCart index s) = delete index (cartNames s) /\
     (NoDup (cartNames s) ->
      forall m, In m (cartNames (removeFromCart index s)) <-> In m (cartNames s) /\ m <> n)).
Proof.
  unfold renderCart. simpl.
  destruct (cart s) as [|c l] eqn:Hcart.
  - simpl. repeat split; try discriminate; try reflexivity.
  - change (List.length (c :: l) =? 0)%nat with false.
    change (0 <? List.length (c :: l))%nat with true.
    split; [split; discriminate|]. split; [split; discriminate|].
    split; [split; discriminate|].
    destruct (imap_rows_offset 0 (c :: l)) as [H1 H2].
    split.
    + intros rows Hrows. injection Hrows as <-. unfold cartNames. rewrite Hcart.
      split; [exact H1 | exact H2].
    + intros rows n index Hrows Hin. injection Hrows as <-.
      apply list_elem_of_In in Hin.
      apply (elem_of_lookup_imap (fun index item => (name item, index)) (c :: l)) in Hin.
      destruct Hin as (i & item & Heq & Hitem). injection Heq as -> ->.
      assert (Hc : cart s !! i = Some (mkCartItem (name item))).
      { rewrite Hcart, Hitem. now destruct item. }
      rewrite <- Hcart. split; [exact Hc|].
      assert (Hdel : cartNames (removeFromCart i s) = delete i (cartNames s)).
      { unfold cartNames. rewrite cart_removeFromCart.
        change (name <$> delete i (cart s) = delete i (name <$> cart s)).
        apply list_fmap_delete. }
      split; [exact Hdel|].
      intros Hnd m. rewrite Hdel. apply delete_NoDup_names; [|exact Hnd].
      unfold cartNames. change (List.map name (cart s)) with (name <$> cart s).
      now rewrite list_lookup_fmap, Hc.
Qed.

Lemma renderCart_rows_and_their_remove_buttons_witness :
  cartNames (removeFromCart 0 (addAll ["milk"; "eggs"] init)) = ["eggs"].
Proof.
  destruct (renderCart_rows_and_their_remove_buttons (addAll ["milk"; "eggs"] init))
    as (_ & _ & _ & _ & H).
  destruct (H [("milk", 0%nat); ("eggs", 1%nat)] "milk" 0%nat eq_refl (or_introl eq_refl))
    as (_ & -> & _).
  reflexivity.
Defined.

(** ** Pending suggestions: rendering, selection and completion order *)

Lemma alterFound_cons (pid : Z) (f : PendingItem -> PendingItem)
  (x : PendingItem) (l : list PendingItem) :
  alterFound pid f (x :: l) =
  if hasId pid x then f x :: l else x :: alterFound pid f l.
Proof.
  unfold alterFound. simpl. destruct (hasId pid x); [reflexivity|].
  destruct (findIndex (hasId pid) l); reflexivity.
Qed.

Lemma set_pendingSuggestions_same (s : State) :
  set_pendingSuggestions (pendingSuggestions s) s = s.
Proof. now destruct s. Qed.

Lemma updateFound_alterFound (pid : Z) (f : PendingItem -> PendingItem) (s : State) :
  updateFound pid f s =
  set_pendingSuggestions (alterFound pid f (pendingSuggestions s)) s.
Proof.
  unfold updateFound, alterFound.
  destruct (findIndex _ _); [reflexivity | now rewrite set_pendingSuggestions_same].
Qed.

Lemma alterFound_comm (pid1 pid2 : Z) (f1 f2 : PendingItem -> PendingItem)
  (l : list PendingItem) :
  pid1 <> pid2 ->
  (forall p, id (f1 p) = id p) -> (forall p, id (f2 p) = id p) ->
  alterFound pid1 f1 (alterFound pid2 f2 l) = alterFound pid2 f2 (alterFound pid1 f1 l).
Proof.
  intros Hne H1 H2. induction l as [|x l IH]; [reflexivity|].
  rewrite !alterFound_cons.
  destruct (hasId pid1 x) eqn:Hx1, (hasId pid2 x) eqn:Hx2.
  - unfold hasId in *. apply Z.eqb_eq in Hx1, Hx2. congruence.
  - rewrite !alterFound_cons. unfold hasId in *. rewrite H1, Hx1, Hx2. reflexivity.
  - rewrite !alterFound_cons. unfold hasId in *. rewrite H2, Hx1, Hx2. reflexivity.
  - rewrite !alterFound_cons, Hx1, Hx2. now rewrite IH.
Qed.

(** The state [fetchSuggestions] leaves and the value it returns. *)
Lemma submitItemForAI_resume_alt (pid : Z) (r : Response SuggestionData) (s : State) :
  submitItemForAI_resume pid r s =
  match r with
  | HttpOk data =>
      set_pendingSuggestions
        (alterFound pid (markComplete (Some data)) (pendingSuggestions s)) s
  | NetworkError | HttpNotOk =>
      set_pendingSuggestions
        (alterFound pid (markComplete None) (pendingSuggestions s))
        (showToast "Failed to get AI suggestions. Try again!" s)
  end.
Proof.
  unfold submitItemForAI_resume. destruct r; simpl; now rewrite updateFound_alterFound.
Qed.

(** Two lookups with different ids may be answered in either order: the
    resulting state is the same, whatever the answers. *)
Theorem lookup_completions_commute
  (pid1 pid2 : Z) (r1 r2 : Response SuggestionData) (s : State) :
  pid1 <> pid2 ->
  submitItemForAI_resume pid1 r1 (submitItemForAI_resume pid2 r2 s) =
  submitItemForAI_resume pid2 r2 (submitItemForAI_resume pid1 r1 s).
Proof.
  intros Hne. rewrite !submitItemForAI_resume_alt.
  assert (Hc : forall d1 d2,
             alterFound pid1 (markComplete d1)
               (alterFound pid2 (markComplete d2) (pendingSuggestions s)) =
             alterFound pid2 (markComplete d2)
               (alterFound pid1 (markComplete d1) (pendingSuggestions s))).
  { intros d1 d2. apply alterFound_comm; [exact Hne | reflexivity | reflexivity]. }
  destruct r1, r2; simpl; unfold set_pendingSuggestions, showToast, set_toasts; simpl;
    rewrite Hc; reflexivity.
Qed.

Lemma lookup_completions_commute_witness :
  let s := submitAll [(1000, "milk"); (2000, "eggs")] init in
  let d := mkSuggestionData (Some "Whole Milk") [] in
  List.map status
    (pendingSuggestions
       (submitItemForAI_resume 1000 (HttpOk d) (submitItemForAI_resume 2000 HttpNotOk s)))
  = [Complete; Complete].
Proof.
  intros s d.
  rewrite (lookup_completions_commute 1000 2000 (HttpOk d) HttpNotOk s); [reflexivity | lia].
Defined.

Lemma withoutId_all (pid : Z) (l : list PendingItem) :
  (forall p, In p l -> id p <> pid) -> withoutId pid l = l.
Proof.
  induction l as [|x l IH]; intros H; [reflexivity|]. simpl.
  assert (Hx : hasId pid x = false).
  { unfold hasId. apply Z.eqb_neq. apply H. now left. }
  rewrite Hx. simpl. f_equal. apply IH. intros p Hp. apply H. now right.
Qed.

(** With pairwise distinct ids, [removePendingItem] removes the entry with
    the id and keeps all the others. *)
Lemma removePendingItem_withoutId (pid : Z) (s : State) :
  NoDup (List.map id (pendingSuggestions s)) ->
  pendingSuggestions (removePendingItem pid s) = withoutId pid (pendingSuggestions s).
Proof.
  intros Hnd. unfold removePendingItem.
  destruct (findIndex (hasId pid) (pendingSuggestions s)) as [i|] eqn:Hi.
  - destruct (findIndex_hasId_Some pid (fun p => p) _ i Hi)
      as (l1 & a & l2 & Hl & Ha & Hl1 & _ & Hdel).
    simpl. rewrite Hdel, Hl. unfold withoutId. rewrite List.filter_app. simpl.
    assert (Hxa : hasId pid a = true) by (unfold hasId; now apply Z.eqb_eq).
    rewrite Hxa. simpl.
    rewrite Hl, List.map_app in Hnd. simpl in Hnd.
    apply NoDup_app in Hnd. destruct Hnd as (_ & _ & Hnd).
    apply NoDup_cons in Hnd. destruct Hnd as (Hna & _).
    fold (withoutId pid l1). fold (withoutId pid l2).
    rewrite (withoutId_all pid l1 Hl1). f_equal. symmetry. apply withoutId_all.
    intros p Hp Hpid. apply Hna. rewrite Ha, <- Hpid.
    apply list_elem_of_In. now apply List.in_map.
  - symmetry. apply withoutId_all. exact (findIndex_hasId_None pid _ Hi).
Qed.

(** The card of a completed entry offers at most 4 names, the suggested
    one (alone marked as best match) and up to 3 alternatives, each tied
    to the id of the entry.  With pairwise distinct ids, clicking any of
    them removes that entry and no other from the pending collection,
    also when the cart rejects the name as a duplicate or for lack of
    room. *)
Theorem selecting_an_offered_name
  (s : State) (p : PendingItem) (text : string) (cards : list (string * bool * Z))
  (n : string) (best : bool) (pid : Z) :
  NoDup (List.map id (pendingSuggestions s)) ->
  In p (pendingSuggestions s) ->
  renderPendingCard p = SuggestionsCard text cards ->
  In (n, best, pid) cards ->
  let s' := suggestionCard_click n (Some pid) s in
  (List.length cards <= 4)%nat /\
  pid = id p /\
  (best = true -> exists data, suggestions p = Some data /\ suggested data = Some n) /\
  pendingSuggestions s' = withoutId (id p) (pendingSuggestions s) /\
  ~ In p (pendingSuggestions s') /\
  (forall q, In q (pendingSuggestions s) -> id q <> id p -> In q (pendingSuggestions s')) /\
  cart s' = cart (addToCart n s).
Proof.
  intros Hnd Hp Hcard Hin s'.
  unfold renderPendingCard in Hcard.
  destruct (status p); try discriminate.
  destruct (suggestions p) as [data|] eqn:Hdata; try discriminate.
  injection Hcard as <- <-.
  assert (Hlen3 : (List.length (firstn 3 (alternatives data)) <= 3)%nat)
    by apply List.firstn_le_length.
  assert (Hpid : pid = id p).
  { apply in_app_or in Hin. destruct Hin as [Hin|Hin].
    - destruct (suggested data); simpl in Hin; [|contradiction].
      destruct Hin as [Hin|[]]. congruence.
    - apply List.in_map_iff in Hin. destruct Hin as (alt & Heq & _). congruence. }
  subst pid.
  assert (Hs' : pendingSuggestions s' = withoutId (id p) (pendingSuggestions s)).
  { subst s'. unfold suggestionCard_click.
    rewrite removePendingItem_withoutId; rewrite pendingSuggestions_addToCart; auto. }
  split; [|split; [reflexivity|split; [|split; [exact Hs'|split; [|split]]]]].
  - rewrite List.length_app, List.length_map. destruct (suggested data); simpl; lia.
  - intros ->. apply in_app_or in Hin. destruct Hin as [Hin|Hin].
    + destruct (suggested data) as [m|] eqn:Hsug; simpl in Hin; [|contradiction].
      destruct Hin as [Hin|[]]. injection Hin as ->. exists data. split; [reflexivity | exact Hsug].
    + apply List.in_map_iff in Hin. destruct Hin as (alt & Heq & _). discriminate Heq.
  - rewrite Hs'. unfold withoutId. rewrite List.filter_In. intros [_ Hf].
    unfold hasId in Hf. now rewrite Z.eqb_refl in Hf.
  - intros q Hq Hne. rewrite Hs'. unfold withoutId. apply List.filter_In.
    split; [exact Hq|]. unfold hasId. apply negb_true_iff. now apply Z.eqb_neq.
  - subst s'. unfold suggestionCard_click, removePendingItem.
    destruct (findIndex _ _); reflexivity.
Qed.

Lemma selecting_an_offered_name_witness :
  let d := mkSuggestionData (Some "Whole Milk") ["Skim Milk"] in
  let a := mkPendingItem 1000 "milk" Complete (Some d) in
  let b := mkPendingItem 2000 "eggs" Loading None in
  let s := set_pendingSuggestions [a; b] (addToCart "Skim Milk" init) in
  pendingSuggestions (suggestionCard_click "Skim Milk" (Some 1000) s) = [b] /\
  cart (suggestionCard_click "Skim Milk" (Some 1000) s) = [mkCartItem "Skim Milk"].
Proof.
  intros d a b s.
  destruct (selecting_an_offered_name s a "milk"
              [("Whole Milk", true, 1000); ("Skim Milk", false, 1000)]
              "Skim Milk" false 1000) as (_ & _ & _ & H & _ & _ & Hc).
  - simpl. repeat constructor; rewrite ?list_elem_of_In; simpl; intuition lia.
  - now left.
  - reflexivity.
  - right. now left.
  - rewrite H, Hc. split; reflexivity.
Defined.

(** *** Independence of the pending entries *)

Lemma findIndex_at (l : list PendingItem) (i : nat) (a : PendingItem) :
  NoDup (List.map id l) -> l !! i = Some a ->
  findIndex (hasId (id a)) l = Some i.
Proof.
  revert i. induction l as [|x l IH]; intros i Hnd Hi; [discriminate|].
  simpl in Hnd. apply NoDup_cons in Hnd. destruct Hnd as [Hx Hnd].
  destruct i as [|i]; simpl in *.
  - injection Hi as ->. unfold hasId. now rewrite Z.eqb_refl.
  - assert (Hne : hasId (id a) x = false).
    { unfold hasId. apply Z.eqb_neq. intros Heq. apply Hx. rewrite Heq.
      apply list_elem_of_In, List.in_map, list_elem_of_In.
      eapply list_elem_of_lookup_2. exact Hi. }
    rewrite Hne, (IH i Hnd Hi). reflexivity.
Qed.

Lemma distinct_positions_distinct_ids (l : list PendingItem) (i j : nat)
  (a b : PendingItem) :
  NoDup (List.map id l) -> l !! i = Some a -> l !! j = Some b -> j <> i ->
  id b <> id a.
Proof.
  intros Hnd Ha Hb Hne Heq. apply Hne.
  apply (NoDup_lookup (List.map id l) j i (id b) Hnd).
  - change (List.map id l) with (id <$> l). now rewrite list_lookup_fmap, Hb.
  - change (List.map id l) with (id <$> l). now rewrite list_lookup_fmap, Ha, Heq.
Qed.

(** C8 as stated fails.  The texts milk and eggs are submitted while
    [Date.now()] returns 1000, so both entries have the id 1000.  When the
    lookup of eggs is answered, its handler finds the entry of milk: that
    entry is marked complete with the suggestions for eggs, and the entry
    of eggs stays as it was. *)
Lemma shared_id_answer_lands_on_another_entry :
  let s := submitAll [(1000, "milk"); (1000, "eggs")] init in
  let d := mkSuggestionData (Some "Large Eggs") [] in
  let s' := submitItemForAI_resume 1000 (HttpOk d) s in
  pendingSuggestions s =
    [mkPendingItem 1000 "milk" Loading None; mkPendingItem 1000 "eggs" Loading None] /\
  pendingSuggestions s' =
    [mkPendingItem 1000 "milk" Complete (Some d); mkPendingItem 1000 "eggs" Loading None] /\
  pendingSuggestions s' !! 0%nat <> pendingSuggestions s !! 0%nat.
Proof. cbv zeta. split; [reflexivity|]. split; [reflexivity|]. discriminate. Qed.

(** C8 (amended).  When the ids of the pending entries are pairwise
    distinct: the completion handler of the lookup of an entry marks that
    entry complete with the answer, keeping its id and text, and leaves
    every other entry as it was, at its place; selecting a suggestion of
    an entry removes that entry and keeps every other one.  Whatever the
    ids, a handler whose id no entry has (its entry was removed) changes
    no entry: the state is the one [fetchSuggestions] left. *)
Theorem pending_entries_are_independent (s : State) :
  let l := pendingSuggestions s in
  (NoDup (List.map id l) ->
   (forall (i : nat) (a : PendingItem) (r : Response SuggestionData),
       l !! i = Some a ->
       let s' := submitItemForAI_resume (id a) r s in
       let answer := match r with HttpOk data => Some data | _ => None end in
       pendingSuggestions s' =
         <[i := mkPendingItem (id a) (originalText a) Complete answer]> l /\
       (forall j b, j <> i -> l !! j = Some b -> pendingSuggestions s' !! j = Some b) /\
       NoDup (List.map id (pendingSuggestions s'))) /\
   (forall (i : nat) (a : PendingItem) (n : string),
       l !! i = Some a ->
       let s' := suggestionCard_click n (Some (id a)) s in
       pendingSuggestions s' = delete i l /\
       ~ In a (pendingSuggestions s') /\
       (forall j b, j <> i -> l !! j = Some b -> In b (pendingSuggestions s')))) /\
  (forall (pid : Z) (r : Response SuggestionData),
      (forall p, In p l -> id p <> pid) ->
      submitItemForAI_resume pid r s = snd (fetchSuggestions_resume r s) /\
      pendingSuggestions (submitItemForAI_resume pid r s) = l /\
      pendingSuggestions (removePendingItem pid s) = l).
Proof.
  cbv zeta. split.
  - intros Hnd. split.
    + intros i a r Ha. pose proof (findIndex_at _ i a Hnd Ha) as Hfi.
      assert (Hps : pendingSuggestions (submitItemForAI_resume (id a) r s) =
                    <[i := mkPendingItem (id a) (originalText a) Complete
                             match r with HttpOk data => Some data | _ => None end]>
                      (pendingSuggestions s)).
      { rewrite submitItemForAI_resume_alt. rewrite list_insert_alter.
        destruct r; simpl; unfold alterFound; rewrite Hfi;
          apply list_alter_ext; try reflexivity;
          intros x Hx; rewrite Ha in Hx; injection Hx as <-; reflexivity. }
      rewrite Hps. split; [reflexivity|]. split.
      * intros j b Hne Hb. rewrite list_lookup_insert_ne by auto. exact Hb.
      * change (List.map id (<[i:=?x]> ?l)) with (id <$> <[i:=x]> l).
        rewrite list_fmap_insert. simpl.
        change (List.map id (pendingSuggestions s)) with (id <$> pendingSuggestions s) in Hnd.
        rewrite list_insert_id; [exact Hnd|].
        now rewrite list_lookup_fmap, Ha.
    + intros i a n Ha. pose proof (findIndex_at _ i a Hnd Ha) as Hfi.
      assert (Hps : pendingSuggestions (suggestionCard_click n (Some (id a)) s) =
                    delete i (pendingSuggestions s)).
      { unfold suggestionCard_click, removePendingItem.
        rewrite pendingSuggestions_addToCart, Hfi. reflexivity. }
      assert (Hw : pendingSuggestions (suggestionCard_click n (Some (id a)) s) =
                   withoutId (id a) (pendingSuggestions s)).
      { unfold suggestionCard_click.
        rewrite removePendingItem_withoutId; rewrite pendingSuggestions_addToCart; auto. }
      split; [exact Hps|]. rewrite Hw. unfold withoutId. split.
      * rewrite List.filter_In. intros [_ Hf]. unfold hasId in Hf.
        now rewrite Z.eqb_refl in Hf.
      * intros j b Hne Hb. apply List.filter_In. split.
        -- apply list_elem_of_In. eapply list_elem_of_lookup_2. exact Hb.
        -- unfold hasId. apply negb_true_iff, Z.eqb_neq.
           exact (distinct_positions_distinct_ids _ i j a b Hnd Ha Hb Hne).
  - intros pid r Habsent.
    destruct (entries_with_another_id_are_kept) as (HA & _).
    destruct (HA pid r s) as [(_ & H1 & H2)|(l1 & a & l2 & a' & Hl & Hid & _)].
    + split; [exact H1|]. split; [exact H2|].
      unfold removePendingItem.
      destruct (findIndex (hasId pid) (pendingSuggestions s)) as [i|] eqn:Hi; [|reflexivity].
      destruct (findIndex_hasId_Some pid (fun p => p) _ i Hi) as (l1 & a & l2 & Hl & Hid & _).
      exfalso. apply (Habsent a); [|exact Hid]. rewrite Hl. apply in_or_app. right. now left.
    + exfalso. apply (Habsent a); [|exact Hid]. rewrite Hl. apply in_or_app. right. now left.
Qed.

Lemma pending_entries_are_independent_witness :
  let d := mkSuggestionData (Some "Whole Milk") [] in
  let s := submitAll [(1000, "milk"); (1001, "eggs")] init in
  pendingSuggestions (submitItemForAI_resume 1001 (HttpOk d) s) =
    [mkPendingItem 1000 "milk" Loading None; mkPendingItem 1001 "eggs" Complete (Some d)] /\
  pendingSuggestions (suggestionCard_click "Whole Milk" (Some 1000) s) =
    [mkPendingItem 1001 "eggs" Loading None].
Proof.
  intros d s.
  destruct (pending_entries_are_independent s) as (H & _).
  assert (Hnd : NoDup (List.map id (pendingSuggestions s))).
  { simpl. repeat constructor; rewrite ?list_elem_of_In; simpl; intuition lia. }
  destruct (H Hnd) as (Hc & Hs).
  destruct (Hc 1%nat (mkPendingItem 1001 "eggs" Loading None) (HttpOk d) eq_refl)
    as (-> & _).
  destruct (Hs 0%nat (mkPendingItem 1000 "milk" Loading None) "Whole Milk" eq_refl)
    as (-> & _).
  split; reflexivity.
Defined.

(** ** The item input and its button *)

(** Pressing Enter in the item input submits its content without the
    white space around it, when 2 characters or more remain: one loading
    entry for that text, one clarification request carrying it and the
    names in the cart, and an empty input.  Any other key changes
    nothing. *)
Theorem enter_submits_the_trimmed_text (key : string) (now : Z) (s : State) :
  (2 <= String.length (trim (itemInput_value s)))%nat ->
  let text := trim (itemInput_value s) in
  let s' := itemInput_keypress key now s in
  (key = "Enter" ->
   pendingSuggestions s' = pendingSuggestions s ++ [mkPendingItem now text Loading None] /\
   requests s' = requests s ++ [ReqClarify text (cartNames s)] /\
   itemInput_value s' = "" /\ cart s' = cart s) /\
  (key <> "Enter" -> s' = s).
Proof.
  intros Hlen text s'. subst text s'. unfold itemInput_keypress. split.
  - intros ->. rewrite String.eqb_refl. cbv zeta.
    apply Nat.leb_le in Hlen. rewrite Hlen. apply Nat.leb_le in Hlen.
    destruct (submitItemForAI_start_accepts now _ s Hlen) as (H1 & H2 & H3).
    repeat split; try assumption.
    unfold submitItemForAI_start. apply Nat.ltb_ge in Hlen. now rewrite Hlen.
  - intros Hne. apply String.eqb_neq in Hne. now rewrite Hne.
Qed.

Lemma enter_submits_the_trimmed_text_witness :
  let s := set_itemInput_value "  whole milk " init in
  pendingSuggestions (itemInput_keypress "Enter" 1000 s) =
    [mkPendingItem 1000 "whole milk" Loading None].
Proof.
  intros s.
  destruct (enter_submits_the_trimmed_text "Enter" 1000 s) as [H _].
  - simpl. lia.
  - destruct (H eq_refl) as (-> & _). reflexivity.
Defined.

(** After the user has edited the item input, a click on the add button
    submits exactly when 2 characters or more remain once trimmed (the
    button is disabled otherwise).  The submission empties the input but
    leaves the button enabled; a further click then does nothing. *)
Theorem add_button_submits_once (typed : string) (now now' : Z) (p : Page) :
  let p1 := itemInput_input typed p in
  let p2 := page_addManualBtn_click now p1 in
  (addManualBtn_disabled p1 = true <-> (String.length (trim typed) < 2)%nat) /\
  ((String.length (trim typed) < 2)%nat -> p2 = p1) /\
  ((2 <= String.length (trim typed))%nat ->
   pendingSuggestions (page_state p2) =
     pendingSuggestions (page_state p) ++ [mkPendingItem now (trim typed) Loading None] /\
   itemInput_value (page_state p2) = "" /\
   addManualBtn_disabled p2 = false /\
   page_addManualBtn_click now' p2 = p2).
Proof.
  intros p1 p2. subst p1 p2. unfold itemInput_input.
  split; [cbn [addManualBtn_disabled]; apply Nat.ltb_lt|].
  unfold page_addManualBtn_click.
  cbn [addManualBtn_disabled page_state findPricesBtn_disabled].
  destruct (String.length (trim typed) <? 2)%nat eqn:Hb.
  - split; [reflexivity|]. intros H. apply Nat.ltb_lt in Hb. lia.
  - split; [intros H; apply Nat.ltb_ge in Hb; lia|]. intros H.
    set (s0 := set_itemInput_value typed (page_state p)).
    assert (Hclick : addManualBtn_click now s0 = submitItemForAI_start now (trim typed) s0).
    { unfold addManualBtn_click. change (itemInput_value s0) with typed. cbv zeta.
      apply Nat.leb_le in H. now rewrite H. }
    rewrite Hclick.
    destruct (submitItemForAI_start_accepts now (trim typed) s0 H) as (H1 & _ & H3).
    cbn [page_state addManualBtn_disabled findPricesBtn_disabled].
    split; [exact H1|]. split; [exact H3|]. split; [reflexivity|].
    unfold addManualBtn_click. rewrite H3. reflexivity.
Qed.

Lemma add_button_submits_once_witness :
  let p := mkPage init true true in
  let p2 := page_addManualBtn_click 1000 (itemInput_input " eggs" p) in
  pendingSuggestions (page_state p2) = [mkPendingItem 1000 "eggs" Loading None] /\
  page_addManualBtn_click 1001 p2 = p2.
Proof.
  intros p p2.
  destruct (add_button_submits_once " eggs" 1000 1001 p) as (_ & _ & H).
  destruct H as (H1 & _ & _ & H4); [simpl; lia|].
  split; [exact H1 | exact H4].
Defined.

(** ** The zip input and its button *)

Lemma digitsOnly_allChars (text : string) :
  allChars isDigit (digitsOnly text) = true.
Proof.
  induction text as [|c text IH]; [reflexivity|]. simpl.
  destruct ((48 <=? N_of_ascii c) && (N_of_ascii c <=? 57))%N eqn:Hc; [|exact IH].
  cbn [allChars]. rewrite IH. unfold isDigit. now rewrite Hc.
Qed.

Lemma digitsOnly_of_digits (text : string) :
  allChars isDigit text = true -> digitsOnly text = text.
Proof.
  induction text as [|c text IH]; [reflexivity|]. cbn [allChars digitsOnly].
  intros H. apply andb_true_iff in H. destruct H as [Hc Ht].
  unfold isDigit in Hc. rewrite Hc. f_equal. now apply IH.
Qed.

Lemma digitsOnly_length (text : string) :
  (String.length (digitsOnly text) <= String.length text)%nat.
Proof.
  induction text as [|c text IH]; [reflexivity|]. simpl.
  destruct (_ && _)%N; simpl; lia.
Qed.

(** Whatever is typed in the zip input, the input then holds its decimal
    digits only, in order (digits alone are kept as typed, and filtering
    again changes nothing), and Find Prices is enabled exactly when there
    are 5 of them.  A click on Find Prices or Enter in the input then
    submits exactly in that case, storing and sending those 5 digits and
    showing step 3 at once. *)
Theorem zip_input_keeps_digits_and_guards_submission
  (typed : string) (prio : bool) (p : Page) :
  let p1 := page_zipInput_input typed p in
  let zip := zipInput_value (page_state p1) in
  zip = digitsOnly typed /\
  allChars isDigit zip = true /\
  (String.length zip <= String.length typed)%nat /\
  digitsOnly zip = zip /\
  (allChars isDigit typed = true -> zip = typed) /\
  (findPricesBtn_disabled p1 = false <-> String.length zip = 5%nat) /\
  zipInput_keypress "Enter" prio p1 = findPricesBtn_click prio p1 /\
  (String.length zip <> 5%nat -> findPricesBtn_click prio p1 = p1) /\
  (String.length zip = 5%nat ->
   let s' := page_state (findPricesBtn_click prio p1) in
   requests s' = requests (page_state p) ++ [ReqCart (cartNames (page_state p)) zip prio] /\
   zipCode s' = Some zip /\ currentStep s' = 3).
Proof.
  intros p1 zip. subst zip p1. simpl.
  split; [reflexivity|]. split; [apply digitsOnly_allChars|].
  split; [apply digitsOnly_length|].
  split; [apply digitsOnly_of_digits, digitsOnly_allChars|].
  split; [apply digitsOnly_of_digits|].
  unfold zipInput_keypress, findPricesBtn_click, page_zipInput_input,
    CONFIG.MIN_ZIP_LENGTH. simpl.
  destruct (String.length (digitsOnly typed) =? 5)%nat eqn:Hl; simpl.
  - apply Nat.eqb_eq in Hl. repeat split; try congruence.
  - apply Nat.eqb_neq in Hl. repeat split; try congruence; try discriminate.
Qed.

Lemma zip_input_keeps_digits_and_guards_submission_witness :
  let p1 := page_zipInput_input "02-139 x" (mkPage (addToCart "bread" init) true true) in
  requests (page_state (findPricesBtn_click false p1)) = [ReqCart ["bread"] "02139" false].
Proof.
  intros p1.
  destruct (zip_input_keeps_digits_and_guards_submission "02-139 x" false
              (mkPage (addToCart "bread" init) true true))
    as (_ & _ & _ & _ & _ & _ & _ & _ & H).
  destruct H as (H & _); [reflexivity|]. exact H.
Defined.

Lemma addAll_frame (names : list string) (s : State) :
  zipInput_value (addAll names s) = zipInput_value s /\
  requests (addAll names s) = requests s /\
  currentStep (addAll names s) = currentStep s.
Proof.
  revert s. induction names as [|n names IH]; intros s; simpl; [repeat split|].
  destruct (IH (addToCart n s)) as (H1 & H2 & H3). unfold addAll in *.
  rewrite H1, H2, H3. unfold addToCart.
  destruct (existsb _ _); [repeat split|]. destruct (_ <=? _)%nat; repeat split.
Qed.

(** New Search empties the zip input without touching the Find Prices
    button: a button that was enabled stays enabled, and after new items
    and Continue a click on it submits the cart with an empty zip code. *)
Theorem find_prices_stays_enabled_after_new_search
  (names : list string) (prio : bool) (p : Page) :
  findPricesBtn_disabled p = false ->
  let p1 := page_newSearchBtn_click p in
  let p2 := mkPage (addAll names (page_state p1))
                   (addManualBtn_disabled p1) (findPricesBtn_disabled p1) in
  let p3 := findPricesBtn_click prio (page_continueBtn_click p2) in
  zipInput_value (page_state p1) = "" /\
  findPricesBtn_disabled p1 = false /\
  requests (page_state p3) =
    requests (page_state p) ++ [ReqCart (cartNames (page_state p2)) "" prio] /\
  zipCode (page_state p3) = Some "" /\
  currentStep (page_state p3) = 3.
Proof.
  intros Hen p1 p2 p3. subst p1 p2 p3.
  unfold findPricesBtn_click, page_continueBtn_click, page_newSearchBtn_click. simpl.
  rewrite Hen. simpl.
  destruct (addAll_frame names (newSearchBtn_click (page_state p))) as (Hz & Hr & _).
  rewrite Hz, Hr. simpl. repeat split; assumption.
Qed.

Lemma find_prices_stays_enabled_after_new_search_witness :
  let p := page_zipInput_input "02139" (mkPage init true true) in
  let p3 := findPricesBtn_click true
              (page_continueBtn_click
                 (mkPage (addAll ["bread"] (page_state (page_newSearchBtn_click p)))
                         true false)) in
  requests (page_state p3) = [ReqCart ["bread"] "" true].
Proof.
  intros p p3.
  destruct (find_prices_stays_enabled_after_new_search ["bread"] true p eq_refl)
    as (_ & _ & H & _).
  exact H.
Defined.

(** ** Submission and polling *)

Lemma clearInterval_frame_requests (h : option Z) (s : State) :
  requests (clearInterval h s) = requests s /\
  jobId (clearInterval h s) = jobId s /\
  resultsView (clearInterval h s) = resultsView s /\
  pendingSuggestions (clearInterval h s) = pendingSuggestions s.
Proof. destruct h; simpl; repeat split. Qed.

Lemma requests_pollResults_resume (r : Response ResultsData) (s : State) :
  requests (pollResults_resume r s) = requests s /\
  jobId (pollResults_resume r s) = jobId s.
Proof.
  destruct (clearInterval_frame_requests (pollInterval s) s) as (Hr & Hj & _).
  destruct r as [| |data]; simpl; try (split; assumption).
  destruct (job_status data); simpl; try (split; assumption); try (split; reflexivity).
  destruct (displayResults data _) as [s3|] eqn:Hd.
  - apply displayResults_frame in Hd. rewrite Hd. simpl. split; assumption.
  - unfold pollResults_catch. simpl.
    match goal with |- requests (clearInterval ?h ?t) = _ /\ _ =>
      destruct (clearInterval_frame_requests h t) as (Hr' & Hj' & _)
    end.
    rewrite Hr', Hj'. simpl. split; assumption.
Qed.

(** A successful submission shows step 3 as soon as the button is
    clicked, stores the content of the zip input, and sends the names of
    the cart in cart order with it; when the job id arrives the first poll
    is sent at once, for that job id, the counter restarts at 1 and the
    progress at 10 whatever it was, and one interval is started. *)
Theorem submission_polls_the_new_job_at_once (prio : bool) (job : string) (s : State) :
  let s1 := submitCart_start prio s in
  let s2 := submitCart_resume (HttpOk (mkCartData job)) s1 in
  currentStep s1 = 3 /\ zipCode s1 = Some (zipInput_value s) /\
  requests s1 = requests s ++ [ReqCart (cartNames s) (zipInput_value s) prio] /\
  intervals s1 = intervals s /\
  requests s2 = requests s1 ++ [ReqResults (Some job)] /\
  jobId s2 = Some job /\ pollCount s2 = 1 /\ progressFill_width s2 = 10 /\
  intervals s2 = intervals s ++ [nextHandle s] /\
  pollInterval s2 = Some (nextHandle s) /\
  currentStep s2 = 3 /\ cart s2 = cart s.
Proof. repeat split. Qed.

(** Every poll of a job asks for the job id stored when polling started,
    and the counter is the number of polls sent: after [startPolling] and
    any ticks and replies, the requests sent since are [pollCount] times
    the request for that job. *)
Theorem polls_ask_for_the_stored_job (s0 : State) (evs : list PollEvent) :
  let s := runPoll evs (startPolling s0) in
  1 <= pollCount s /\
  jobId s = jobId s0 /\
  requests s =
    requests s0 ++ replicate (Z.to_nat (pollCount s)) (ReqResults (jobId s0)).
Proof.
  induction evs as [|e evs IH] using rev_ind.
  - simpl. repeat split. lia.
  - cbv zeta in *. rewrite runPoll_snoc.
    destruct IH as (Hc & Hj & Hr). destruct e as [h|r]; simpl.
    + unfold interval_fires. destruct (existsb _ _); [|repeat split; assumption].
      simpl. split; [lia|]. split; [exact Hj|].
      rewrite Hr, Hj.
      replace (Z.to_nat (pollCount (runPoll evs (startPolling s0)) + 1))
        with (S (Z.to_nat (pollCount (runPoll evs (startPolling s0))))) by lia.
      rewrite replicate_S_end. now rewrite app_assoc.
    + destruct (requests_pollResults_resume r (runPoll evs (startPolling s0))) as (Hr' & Hj').
      rewrite Hr', Hj', pollCount_pollResults_resume. repeat split; assumption.
Qed.

Lemma pollStep_idle (h0 : Z) (e : PollEvent) (s : State) :
  pollInv h0 s -> intervals s = [] ->
  intervals (pollStep e s) = [] /\ requests (pollStep e s) = requests s.
Proof.
  intros Hinv Hnil. destruct e as [h|r]; simpl.
  - unfold interval_fires. rewrite Hnil. simpl. split; [exact Hnil | reflexivity].
  - split; [|apply requests_pollResults_resume].
    rewrite intervals_pollResults_resume. destruct (pollEnds r); [|exact Hnil].
    now apply intervals_clearInterval_nil.
Qed.

Lemma runPoll_idle (h0 : Z) (evs : list PollEvent) (s : State) :
  pollInv h0 s -> intervals s = [] ->
  intervals (runPoll evs s) = [] /\ requests (runPoll evs s) = requests s.
Proof.
  revert s. induction evs as [|e evs IH]; intros s Hinv Hnil; [split; [exact Hnil|reflexivity]|].
  simpl. destruct (pollStep_idle h0 e s Hinv Hnil) as (Hn & Hr).
  destruct (IH (pollStep e s) (pollInv_pollStep h0 e s Hinv) Hn) as (Hn' & Hr').
  unfold runPoll in *. rewrite Hn', Hr', Hr. split; reflexivity.
Qed.

(** In the polling started when no interval was active: once a reply has
    ended it (complete, failed, or a request error), no interval is active
    and no request is sent any more, whatever fires or arrives later. *)
Theorem no_request_after_the_polling_ended
  (s0 : State) (evs later : list PollEvent) :
  intervals s0 = [] ->
  existsb endsPolling evs = true ->
  intervals (runPoll evs (startPolling s0)) = [] /\
  intervals (runPoll (evs ++ later) (startPolling s0)) = [] /\
  requests (runPoll (evs ++ later) (startPolling s0)) =
    requests (runPoll evs (startPolling s0)).
Proof.
  intros H0 Hends.
  assert (Hnil : intervals (runPoll evs (startPolling s0)) = []).
  { induction evs as [|e evs IH] using rev_ind; [discriminate|].
    rewrite runPoll_snoc.
    destruct (progress_100_iff_complete s0 evs H0) as (Hinv & _).
    rewrite existsb_app in Hends. simpl in Hends. rewrite orb_false_r in Hends.
    destruct (existsb endsPolling evs) eqn:Hevs.
    - apply (pollStep_idle (nextHandle s0)); [exact Hinv | now apply IH].
    - simpl in Hends. destruct e as [h|r]; [discriminate|]. simpl in Hends. simpl.
      rewrite intervals_pollResults_resume, Hends.
      apply intervals_clear_stored.
      destruct Hinv as (Hp & _ & [Hn|(Hi & _)]); [now left | right; eauto]. }
  split; [exact Hnil|].
  destruct (progress_100_iff_complete s0 evs H0) as (Hinv & _).
  assert (Happ : runPoll (evs ++ later) (startPolling s0) =
                 runPoll later (runPoll evs (startPolling s0)))
    by (unfold runPoll; apply fold_left_app).
  rewrite Happ. exact (runPoll_idle (nextHandle s0) later _ Hinv Hnil).
Qed.

Lemma no_request_after_the_polling_ended_witness :
  requests (runPoll [Fires 1; Reply HttpNotOk; Fires 1; Fires 1] (startPolling init)) =
  [ReqResults None; ReqResults None].
Proof.
  destruct (no_request_after_the_polling_ended init [Fires 1; Reply HttpNotOk]
              [Fires 1; Fires 1] eq_refl eq_refl) as (_ & _ & H).
  exact H.
Defined.

(** In the polling started when no interval was active: as long as no
    reply ends it (only queued, processing or unknown statuses arrive),
    the interval stays active and the step and the notices are as they
    were: polling goes on, however many replies arrived. *)
Theorem polling_goes_on_until_a_reply_ends_it (s0 : State) (evs : list PollEvent) :
  intervals s0 = [] ->
  existsb endsPolling evs = false ->
  let s := runPoll evs (startPolling s0) in
  intervals s = [nextHandle s0] /\
  currentStep s = currentStep s0 /\
  toasts s = toasts s0 /\
  cart s = cart s0.
Proof.
  intros H0. induction evs as [|e evs IH] using rev_ind; intros Hends.
  - simpl. rewrite H0. repeat split.
  - rewrite existsb_app in Hends. simpl in Hends. rewrite orb_false_r in Hends.
    apply orb_false_iff in Hends. destruct Hends as [Hevs He].
    cbv zeta in *. rewrite runPoll_snoc.
    destruct (IH Hevs) as (Hi & Hs & Ht & Hc).
    destruct e as [h|r]; simpl.
    + unfold interval_fires.
      destruct (existsb (Z.eqb h) _); simpl; repeat split; assumption.
    + simpl in He. rewrite intervals_pollResults_resume, He.
      split; [exact Hi|].
      unfold pollEnds in He. apply orb_false_iff in He. destruct He as [He1 He2].
      destruct r as [| |data]; simpl in *; try discriminate.
      destruct (job_status data); simpl in *; try discriminate; repeat split; assumption.
Qed.

Lemma polling_goes_on_until_a_reply_ends_it_witness :
  intervals
    (runPoll [Reply (HttpOk (mkResultsData JobQueued (Some 3) None None None)); Fires 1;
              Reply (HttpOk (mkResultsData JobProcessing None None None None))]
       (startPolling init)) = [1].
Proof.
  apply (polling_goes_on_until_a_reply_ends_it init
           [Reply (HttpOk (mkResultsData JobQueued (Some 3) None None None)); Fires 1;
            Reply (HttpOk (mkResultsData JobProcessing None None None None))]);
    reflexivity.
Defined.

(** New Search empties the cart, the job id, the zip code and both inputs
    and shows step 1, but clears neither the pending suggestions nor an
    interval left active, and keeps the progress and the results view: a
    lookup answered afterwards still completes its entry, and an interval
    still active then polls without a job id. *)
Theorem new_search_resets_the_search_only (s : State) :
  let s' := newSearchBtn_click s in
  cart s' = [] /\ jobId s' = None /\ zipCode s' = None /\
  itemInput_value s' = "" /\ zipInput_value s' = "" /\ currentStep s' = 1 /\
  pendingSuggestions s' = pendingSuggestions s /\
  intervals s' = intervals s /\ pollInterval s' = pollInterval s /\
  progressFill_width s' = progressFill_width s /\
  resultsView s' = resultsView s /\
  (forall pid r,
      pendingSuggestions (submitItemForAI_resume pid r s') =
      pendingSuggestions (submitItemForAI_resume pid r s)) /\
  (forall h, In h (intervals s) ->
      requests (interval_fires h s') = requests s ++ [ReqResults None]).
Proof.
  cbv zeta. repeat split.
  - intros. rewrite !submitItemForAI_resume_alt. destruct r; reflexivity.
  - intros h Hin. unfold interval_fires.
    assert (Hex : existsb (Z.eqb h) (intervals (newSearchBtn_click s)) = true).
    { apply existsb_exists. exists h. split; [exact Hin | apply Z.eqb_refl]. }
    rewrite Hex. reflexivity.
Qed.

Lemma new_search_resets_the_search_only_witness :
  let s := runPollOps [OpSubmit true "job1"] init in
  requests (interval_fires 1 (newSearchBtn_click s)) =
  requests s ++ [ReqResults None].
Proof.
  intros s.
  destruct (new_search_resets_the_search_only s)
    as (_ & _ & _ & _ & _ & _ & _ & _ & _ & _ & _ & _ & H).
  apply H. now left.
Defined.

(** ** The results view, further *)

Lemma insertByPrice_le_all (x : Product) (l : list Product) :
  Forall (priceLe x) l -> insertByPrice x l = x :: l.
Proof.
  intros H. destruct l as [|y l]; [reflexivity|]. simpl.
  apply List.Forall_inv in H. unfold priceLe in H.
  destruct (price y ?= price x)%Q eqn:Hc; try reflexivity.
  apply Qlt_alt in Hc. exfalso. exact (Qlt_not_le _ _ Hc H).
Qed.

(** A list the server already sent by ascending price is shown in the
    server's order: sorting leaves it as it is.  Hence sorting twice is
    sorting once. *)
Theorem sortByPrice_keeps_a_sorted_list (products : list Product) :
  (StronglySorted priceLe products -> sortByPrice products = products) /\
  sortByPrice (sortByPrice products) = sortByPrice products.
Proof.
  assert (H : forall l, StronglySorted priceLe l -> sortByPrice l = l).
  { induction 1 as [|x l Hs IH Hall]; [reflexivity|]. simpl. rewrite IH.
    now apply insertByPrice_le_all. }
  split; [apply H | apply H, sortByPrice_sorted].
Qed.

Lemma sortByPrice_keeps_a_sorted_list_witness :
  sortByPrice [productA; productB; productC] = [productA; productB; productC].
Proof.
  apply (proj1 (sortByPrice_keeps_a_sorted_list [productA; productB; productC])).
  repeat constructor; unfold priceLe; simpl; unfold Qle; simpl; lia.
Defined.

(** What a best-price block holds, for the product list it was built
    from. *)
Lemma renderBestPrice_shown (cartIndex : nat) (products : list Product)
  (view : BestPriceView) :
  renderBestPrice cartIndex products = Some view ->
  exists p0,
    In p0 products /\
    (forall q, In q products -> (price p0 <= price q)%Q) /\
    shownProducts view = List.filter (hasPrice (price p0)) products /\
    match view with
    | SingleBest _ bp => bp = price p0
    | MultiBest _ bp otherCount idx hiddenRows =>
        bp = price p0 /\ otherCount = List.length hiddenRows /\
        (1 <= otherCount)%nat /\ idx = cartIndex
    end.
Proof.
  intros Hr.
  assert (Hne : products <> []) by (intros ->; discriminate Hr).
  destruct (sortByPrice_head products Hne) as (p0 & rest & Hsort & Hin & Hmin).
  assert (Hhead : head (sortByPrice products) = Some p0) by now rewrite Hsort.
  exists p0. split; [exact Hin|]. split; [exact Hmin|].
  unfold renderBestPrice in Hr. cbv zeta in Hr. rewrite Hhead in Hr. simpl in Hr.
  unfold bestPriceProducts in Hr. rewrite filter_hasPrice_sortByPrice in Hr.
  destruct (List.filter (hasPrice (price p0)) products) as [|b [|b' bs]];
    simpl in Hr; try discriminate; injection Hr as <-; simpl.
  - split; reflexivity.
  - split; [reflexivity|]. repeat split; lia.
Qed.

(** A card shows products of the lowest price of its item only, all of
    them, in the server's order; every product of the item that costs
    more is left out of the view. *)
Theorem a_card_shows_only_the_cheapest
  (cartIndex : nat) (products : list Product) (view : BestPriceView) :
  renderBestPrice cartIndex products = Some view ->
  shownProducts view <> [] /\
  (forall q, In q (shownProducts view) ->
     In q products /\ forall q', In q' products -> (price q <= price q')%Q) /\
  (forall q q', In q products -> In q' (shownProducts view) ->
     (price q' < price q)%Q -> ~ In q (shownProducts view)) /\
  (List.length (shownProducts view) <= List.length products)%nat.
Proof.
  intros Hr. destruct (renderBestPrice_shown _ _ _ Hr) as (p0 & Hin & Hmin & Hshown & _).
  rewrite Hshown.
  assert (Hsh : forall q, In q (List.filter (hasPrice (price p0)) products) ->
                          In q products /\ (price q == price p0)%Q).
  { intros q Hq. apply List.filter_In in Hq. destruct Hq as [Hq Hp].
    split; [exact Hq|]. now apply Qeq_bool_iff in Hp. }
  split; [|split; [|split]].
  - intros Hnil.
    assert (Hp0 : In p0 (List.filter (hasPrice (price p0)) products)).
    { apply List.filter_In. split; [exact Hin|]. apply Qeq_bool_iff. reflexivity. }
    rewrite Hnil in Hp0. contradiction.
  - intros q Hq. destruct (Hsh q Hq) as [Hq1 Hq2]. split; [exact Hq1|].
    intros q' Hq'. rewrite Hq2. now apply Hmin.
  - intros q q' Hq Hq' Hlt Hqs.
    destruct (Hsh q Hqs) as [_ He]. destruct (Hsh q' Hq') as [_ He'].
    rewrite He, He' in Hlt. now apply Qlt_irrefl in Hlt.
  - apply List.filter_length_le.
Qed.

Lemma a_card_shows_only_the_cheapest_witness :
  ~ In productC (shownProducts (MultiBest productA 3.50%Q 1 0 [productB])).
Proof.
  destruct (a_card_shows_only_the_cheapest 0 [productA; productB; productC]
              (MultiBest productA 3.50%Q 1 0 [productB]) eq_refl) as (_ & _ & H & _).
  apply (H productC productA).
  - right. right. now left.
  - now left.
  - reflexivity.
Defined.

(** The block of the other stores of a card starts hidden, with at least
    one row and a button counting the rows; a click shows it and turns
    the button into "Hide other stores", and a second click hides it and
    brings back the text first written. *)
Theorem toggling_twice_restores_the_card
  (cartIndex : nat) (products : list Product) (view : BestPriceView)
  (panel : StoresPanel) :
  renderBestPrice cartIndex products = Some view ->
  storesPanel view = Some panel ->
  stores_hidden panel = true /\
  (1 <= stores_rows panel)%nat /\
  btn_text panel = ShowOthers (stores_rows panel) (1 <? stores_rows panel)%nat /\
  stores_hidden (toggleStores panel) = false /\
  btn_text (toggleStores panel) = HideOthers /\
  toggleStores (toggleStores panel) = panel.
Proof.
  intros Hr Hp. destruct (renderBestPrice_shown _ _ _ Hr) as (p0 & _ & _ & _ & Hv).
  destruct view as [product bp|first bp otherCount idx hiddenRows]; [discriminate|].
  destruct Hv as (_ & Hcount & Hpos & _). simpl in Hp. injection Hp as <-.
  subst otherCount. simpl. repeat split. exact Hpos.
Qed.

Lemma toggling_twice_restores_the_card_witness :
  toggleStores (toggleStores (mkStoresPanel true 1 (ShowOthers 1 false))) =
  mkStoresPanel true 1 (ShowOthers 1 false).
Proof.
  apply (toggling_twice_restores_the_card 0 [productA; productB; productC]
           (MultiBest productA 3.50%Q 1 0 [productB])
           (mkStoresPanel true 1 (ShowOthers 1 false))); reflexivity.
Defined.

(** In the results table the card at a position is the one of the cart
    item at that position, and the toggle of a card with several stores is
    tied to that position: no two cards share a toggle. *)
Theorem card_toggles_are_tied_to_their_position
  (data : ResultsData) (s s' : State) (i : nat) (n : string)
  (first : Product) (bp : Q) (otherCount idx : nat) (hiddenRows : list Product) :
  displayResults data s = Some s' ->
  resultsTable (resultsView s') !! i =
    Some (ProductsCard n (MultiBest first bp otherCount idx hiddenRows)) ->
  idx = i /\ cart s !! i = Some (mkCartItem n) /\
  otherCount = List.length hiddenRows.
Proof.
  unfold displayResults. cbv zeta. intros Hd Hcard.
  destruct (mapM _ _) as [cards|] eqn:Hm; simpl in Hd; [|discriminate].
  injection Hd as <-. simpl in Hcard. apply mapM_Some in Hm.
  destruct (Forall2_lookup_r _ _ _ _ _ Hm Hcard) as ([j c] & Hj & Hr).
  rewrite list_lookup_imap in Hj.
  destruct (cart s !! i) as [c'|] eqn:Hc; simpl in Hj; [|discriminate].
  injection Hj as <- <-. simpl in Hr. unfold renderCard in Hr.
  destruct (lookupResults _ (name c')) as [l|[[|k]|]]; try discriminate.
  destruct (List.length l =? 0)%nat; [discriminate|].
  destruct (renderBestPrice i l) as [view|] eqn:Hv; simpl in Hr; [|discriminate].
  injection Hr as <- ->.
  destruct (renderBestPrice_shown _ _ _ Hv) as (p0 & _ & _ & _ & _ & Hcount & _ & Hidx).
  split; [exact Hidx|]. split; [now destruct c'| exact Hcount].
Qed.

Lemma card_toggles_are_tied_to_their_position_witness :
  (1 = 1)%nat /\
  cart (addAll ["eggs"; "milk"] init) !! 1%nat = Some (mkCartItem "milk") /\
  (1 = List.length [productB])%nat.
Proof.
  eapply (card_toggles_are_tied_to_their_position milkOnly
            (addAll ["eggs"; "milk"] init) _ 1%nat "milk" productA 3.50%Q 1%nat 1%nat
            [productB]); [vm_compute; reflexivity | reflexivity].
Defined.

(** The counts of the summary, over the entries of the results mapping. *)
Lemma counts_of_entries (l : list (string * list Product)) :
  let found := List.length (List.filter (fun kv => (0 <? List.length (snd kv))%nat) l) in
  let total := foldr (fun kv acc => (acc + List.length (snd kv))%nat) O l in
  (found <= List.length l)%nat /\ (found <= total)%nat /\ (total = 0%nat <-> found = 0%nat).
Proof.
  induction l as [|[k v] l IH]; simpl; [repeat split; lia|].
  destruct IH as (H1 & H2 & H3). destruct v as [|p v]; simpl; [repeat split; lia|].
  repeat split; lia.
Qed.

Lemma displayResults_None (data : ResultsData) (s : State) :
  displayResults data s = None <->
  exists c len,
    In c (cart s) /\
    lookupResults (default ∅ (results data)) (name c) = InheritedValue len /\
    len <> Some 0%nat.
Proof.
  unfold displayResults. cbv zeta.
  set (res := default ∅ (results data)).
  destruct (mapM (fun ic => renderCard res ic.1 ic.2) (imap pair (cart s)))
    as [cards|] eqn:Hm; simpl.
  - split; [discriminate|]. intros (c & len & Hin & Hl & Hne). exfalso.
    apply list_elem_of_In, list_elem_of_lookup in Hin. destruct Hin as [i Hi].
    assert (Hic : imap pair (cart s) !! i = Some (i, c))
      by now rewrite list_lookup_imap, Hi.
    apply mapM_Some in Hm.
    destruct (Forall2_lookup_l _ _ _ _ _ Hm Hic) as (card & _ & Hr). simpl in Hr.
    assert (Hnone : renderCard res i c = None) by (apply renderCard_None; eauto).
    rewrite Hnone in Hr. discriminate Hr.
  - split; [intros _|reflexivity].
    apply mapM_None_1, Exists_exists in Hm.
    destruct Hm as ([i c] & Hin & Hnone). simpl in Hnone.
    apply renderCard_None in Hnone. destruct Hnone as (len & Hlen & Hne).
    apply elem_of_lookup_imap in Hin. destruct Hin as (j & c' & Heq & Hc').
    injection Heq as -> ->. exists c', len.
    split; [|split; assumption].
    apply list_elem_of_In. eapply list_elem_of_lookup_2. exact Hc'.
Qed.

(** [displayResults] throws exactly when some cart item has no entry in
    the results and its name is a property every object inherits whose
    value has a [.length] other than 0 (constructor, hasOwnProperty,
    __proto__, ...); a reply reporting complete then ends at step 2 with
    the error notice, the progress left at 100.  When it returns, the
    items found are at most the entries of the results mapping and at most
    the products counted, and there are none exactly when no product is
    counted; the total of items is the size of the cart.  When the body
    has no [results] and no cart name is inherited, every cart item gets
    the "No products found" card and both counts are 0. *)
Theorem displayResults_summary_and_failure (data : ResultsData) (s : State) :
  let res := default ∅ (results data) in
  let throws :=
    exists c len,
      In c (cart s) /\ lookupResults res (name c) = InheritedValue len /\
      len <> Some 0%nat in
  (displayResults data s = None <-> throws) /\
  (throws -> job_status data = JobComplete ->
   let s' := pollResults_resume (HttpOk data) s in
   currentStep s' = 2 /\ progressFill_width s' = 100 /\
   toasts s' = toasts s ++ ["Error fetching results. Please try again."]) /\
  (forall s', displayResults data s = Some s' ->
     let v := resultsView s' in
     (itemsFoundCount v <= size res)%nat /\
     (itemsFoundCount v <= totalProducts v)%nat /\
     (totalProducts v = 0%nat <-> itemsFoundCount v = 0%nat) /\
     totalItems v = List.length (cart s)) /\
  (results data = None ->
   (forall c, In c (cart s) -> inheritedLength (name c) = None) ->
   exists s',
     displayResults data s = Some s' /\
     itemsFoundCount (resultsView s') = 0%nat /\
     totalProducts (resultsView s') = 0%nat /\
     resultsTable (resultsView s') =
       List.map (fun c => NoProductsCard (name c)) (cart s)).
Proof.
  cbv zeta. split; [apply displayResults_None|]. split; [|split].
  - intros Hthrows Hst. simpl. rewrite Hst.
    destruct (clearInterval_frame (pollInterval s) s) as (Hc & _ & _ & Ht & _).
    assert (Hnone : displayResults data
              (set_progressFill_width 100 (clearInterval (pollInterval s) s)) = None).
    { apply displayResults_None. simpl. rewrite Hc. exact Hthrows. }
    rewrite Hnone. unfold pollResults_catch, displayResults_thrown, writeResultsView.
    simpl.
    match goal with |- context [clearInterval ?h ?t] =>
      destruct (clearInterval_frame h t) as (_ & _ & _ & Ht' & _ & Hw' & _)
    end.
    rewrite Ht', Hw'. simpl. rewrite Ht. repeat split.
  - intros s' Hd. unfold displayResults in Hd. cbv zeta in Hd.
    destruct (mapM _ _) as [cards|]; simpl in Hd; [|discriminate].
    injection Hd as <-. simpl.
    destruct (counts_of_entries (map_to_list (default ∅ (results data))))
      as (H1 & H2 & H3).
    unfold itemsWithResults, totalProductsCount. rewrite List.length_map.
    rewrite <- (length_map_to_list (default ∅ (results data))).
    split; [exact H1|]. split; [exact H2|]. split; [exact H3 | reflexivity].
  - intros Hnone Hall. unfold displayResults. cbv zeta. rewrite Hnone. simpl.
    assert (Hcards : mapM (fun ic : nat * CartItem => renderCard ∅ ic.1 ic.2)
                       (imap pair (cart s)) =
                     Some (List.map (fun c => NoProductsCard (name c)) (cart s))).
    { assert (Hgen : forall (l : list CartItem) (h : nat -> nat),
                 (forall c, In c l -> inheritedLength (name c) = None) ->
                 mapM (fun ic : nat * CartItem => renderCard ∅ ic.1 ic.2)
                   (imap (fun i x => (h i, x)) l) =
                 Some (List.map (fun c => NoProductsCard (name c)) l)).
      { induction l as [|x l IH]; intros h Hl; [reflexivity|]. simpl.
        assert (Hx : renderCard ∅ (h 0%nat) x = Some (NoProductsCard (name x))).
        { unfold renderCard, lookupResults. rewrite lookup_empty.
          rewrite (Hl x (or_introl eq_refl)). reflexivity. }
        rewrite Hx. simpl.
        change (imap ((fun i x0 => (h i, x0)) ∘ S) l)
          with (imap (fun i x0 => ((h ∘ S) i, x0)) l).
        rewrite IH by (intros c Hc; apply Hl; now right). reflexivity. }
      exact (Hgen (cart s) (fun i => i) Hall). }
    rewrite Hcards. simpl. eexists. split; [reflexivity|].
    unfold writeResultsView. rewrite Hnone. simpl.
    unfold itemsWithResults, totalProductsCount. rewrite map_to_list_empty.
    repeat split.
Qed.

Lemma displayResults_summary_and_failure_witness :
  displayResults milkOnly (addAll ["milk"; "constructor"] init) = None /\
  currentStep
    (pollResults_resume (HttpOk milkOnly) (addAll ["milk"; "constructor"] init)) = 2.
Proof.
  destruct (displayResults_summary_and_failure milkOnly
              (addAll ["milk"; "constructor"] init)) as (Hnone & Hpoll & _).
  assert (Hthrows : exists c len,
             In c (cart (addAll ["milk"; "constructor"] init)) /\
             lookupResults (default ∅ (results milkOnly)) (name c) = InheritedValue len /\
             len <> Some 0%nat).
  { exists (mkCartItem "constructor"), (Some 1%nat).
    split; [right; now left|]. split; [vm_compute; reflexivity | discriminate]. }
  split; [now apply Hnone|]. now apply Hpoll.
Defined.

(** ** [debounce] *)

Lemma calledArgs_snoc {Args : Type} (evs : list (DebounceEvent Args))
  (e : DebounceEvent Args) :
  calledArgs (evs ++ [e]) =
  calledArgs evs ++ match e with Called a => [a] | Elapsed _ => [] end.
Proof.
  unfold calledArgs. rewrite omap_app. destruct e; reflexivity.
Qed.

Lemma runDebounce_snoc {Args : Type} (evs : list (DebounceEvent Args))
  (e : DebounceEvent Args) (d : Debounced Args) :
  runDebounce (evs ++ [e]) d = debounceStep e (runDebounce evs d).
Proof. unfold runDebounce. now rewrite fold_left_app. Qed.

Lemma clearTimeout_stored {Args : Type} (d : Debounced Args) :
  debounceInv d -> clearTimeout (timeoutId d) (timeouts d) = [].
Proof.
  intros [Hn|(a & Ht & Hid)].
  - rewrite Hn. now destruct (timeoutId d).
  - rewrite Ht, Hid. simpl. now rewrite Z.eqb_refl.
Qed.

Lemma debounceInv_call {Args : Type} (a : Args) (d : Debounced Args) :
  debounceInv d ->
  timeouts (debounced_call a d) = [(nextTimeout d, a)] /\
  debounceInv (debounced_call a d).
Proof.
  intros Hinv. unfold debounced_call. simpl.
  rewrite (clearTimeout_stored d Hinv). simpl. split; [reflexivity|].
  right. exists a. simpl. replace (nextTimeout d + 1 - 1) with (nextTimeout d) by lia.
  split; reflexivity.
Qed.

Lemma debounce_run_invariant {Args : Type} (next : Z) (evs : list (DebounceEvent Args)) :
  let d := runDebounce evs (debounce next) in
  debounceInv d /\
  applied d ++ List.map snd (timeouts d) `sublist_of` calledArgs evs /\
  (forall h a, timeouts d = [(h, a)] -> last (calledArgs evs) = Some a).
Proof.
  induction evs as [|e evs IH] using rev_ind.
  - simpl. split; [now left|]. split; [constructor | discriminate].
  - cbv zeta in *. rewrite runDebounce_snoc, calledArgs_snoc.
    destruct IH as (Hinv & Hsub & Hlast).
    set (d := runDebounce evs (debounce next)) in *.
    destruct e as [a|h]; cbn [debounceStep].
    + destruct (debounceInv_call a d Hinv) as (Ht & Hinv'). rewrite Ht.
      split; [exact Hinv'|]. split.
      * simpl. apply sublist_app; [|reflexivity].
        etransitivity; [|exact Hsub]. apply sublist_inserts_r. reflexivity.
      * intros h' a' Heq. injection Heq as _ <-. apply last_snoc.
    + rewrite app_nil_r. unfold timeout_fires.
      destruct Hinv as [Hn|(a & Ht & Hid)].
      * rewrite Hn. simpl. split; [now left|]. split; [exact Hsub|].
        intros h' a' Heq. rewrite Hn in Heq. discriminate.
      * rewrite Ht. simpl. destruct (nextTimeout d - 1 =? h) eqn:Hh; simpl.
        -- split; [now left|]. rewrite Ht in Hsub. simpl in Hsub.
           rewrite app_nil_r. split; [exact Hsub | discriminate].
        -- split; [right; eauto|]. split; [exact Hsub | exact Hlast].
Qed.

(** However calls of a debounced function and expiries of its timeouts
    alternate, at most one timeout is held at any time, it is the one
    stored in [timeoutId] and it carries the arguments of the latest
    call; and [func] is applied only to arguments of calls, at most once
    per call and in the order of the calls. *)
Theorem debounce_holds_one_timeout {Args : Type} (next : Z)
  (evs : list (DebounceEvent Args)) :
  let d := runDebounce evs (debounce next) in
  (List.length (timeouts d) <= 1)%nat /\
  (forall h a, In (h, a) (timeouts d) ->
     timeoutId d = Some h /\ last (calledArgs evs) = Some a) /\
  applied d `sublist_of` calledArgs evs.
Proof.
  cbv zeta. destruct (debounce_run_invariant next evs) as (Hinv & Hsub & Hlast).
  split; [|split].
  - destruct Hinv as [->|(a & -> & _)]; simpl; lia.
  - intros h a Hin. destruct Hinv as [Hn|(a' & Ht & Hid)].
    + rewrite Hn in Hin. contradiction.
    + rewrite Ht in Hin. destruct Hin as [Heq|[]]. injection Heq as <- <-.
      split; [exact Hid | exact (Hlast _ _ Ht)].
  - etransitivity; [|exact Hsub]. apply sublist_inserts_r. reflexivity.
Qed.

Lemma applied_calls {Args : Type} (burst : list Args) (d : Debounced Args) :
  debounceInv d ->
  applied (runDebounce (List.map Called burst) d) = applied d /\
  debounceInv (runDebounce (List.map Called burst) d).
Proof.
  revert d. induction burst as [|b burst IH]; intros d Hinv; [split; [reflexivity|exact Hinv]|].
  simpl. destruct (debounceInv_call b d Hinv) as (_ & Hinv').
  destruct (IH _ Hinv') as (Ha & Hi). unfold runDebounce in *. rewrite Ha. split; [reflexivity | exact Hi].
Qed.

(** A burst of calls, made at any point and with no expiry in between,
    applies [func] to none of its arguments; it leaves one timeout, and
    when that one expires [func] is applied once, to the arguments of the
    last call of the burst. *)
Theorem debounce_burst_applies_the_last_call {Args : Type} (next : Z)
  (evs : list (DebounceEvent Args)) (burst : list Args) (a : Args) :
  let d := runDebounce evs (debounce next) in
  let d' := runDebounce (List.map Called (burst ++ [a])) d in
  exists h,
    timeouts d' = [(h, a)] /\
    applied d' = applied d /\
    applied (timeout_fires h d') = applied d ++ [a] /\
    timeouts (timeout_fires h d') = [] /\
    (forall h', h' <> h -> timeout_fires h' d' = d').
Proof.
  cbv zeta. destruct (debounce_run_invariant next evs) as (Hinv & _ & _).
  set (d := runDebounce evs (debounce next)) in *.
  rewrite List.map_app. simpl.
  assert (Happ : runDebounce (List.map Called burst ++ [Called a]) d =
                 debounced_call a (runDebounce (List.map Called burst) d))
    by exact (runDebounce_snoc (List.map Called burst) (Called a) d).
  rewrite Happ. destruct (applied_calls burst d Hinv) as (Ha & Hinv1).
  destruct (debounceInv_call a _ Hinv1) as (Ht & _).
  set (d1 := runDebounce (List.map Called burst) d) in *.
  exists (nextTimeout d1). split; [exact Ht|]. split; [exact Ha|].
  unfold timeout_fires. rewrite Ht. simpl. rewrite Z.eqb_refl. simpl.
  rewrite Ha. repeat split.
  intros h' Hne. apply Z.eqb_neq in Hne. rewrite Z.eqb_sym in Hne. now rewrite Hne.
Qed.

(** ** The proxy functions *)

(** The results proxy contacts the backend at most once, and not at all
    for a method other than GET (answered 405, whatever the job id) or a
    missing or empty job id (answered 400).  An answer with a status from
    200 to 299 is always the answer of the backend to the GET of
    [/api/results/] followed by the job id, with its status and its data
    unchanged; an answer the proxy makes itself is an error object with
    status 405, 400 or 500. *)
Theorem results_proxy_forwards_or_refuses {Json : Type} (env : option string)
  (backend : BackendCall Json -> BackendOutcome Json) (req : ProxyRequest Json) :
  let out := resultsHandler env backend req in
  (List.length (fst out) <= 1)%nat /\
  (req_method req <> "GET" ->
   out = ([], (405, ErrorBody "Method not allowed" None))) /\
  (req_method req = "GET" -> (req_jobId req = None \/ req_jobId req = Some "") ->
   out = ([], (400, ErrorBody "Job ID is required" None))) /\
  (forall status data, snd out = (status, DataBody data) ->
     exists jobId,
       req_method req = "GET" /\ req_jobId req = Some jobId /\ jobId <> "" /\
       let call := mkBackendCall (backendUrl env ++ "/api/results/" ++ jobId)%string
                                 "GET" None in
       fst out = [call] /\ backend call = BackendAnswers status data) /\
  (forall status error details, snd out = (status, ErrorBody error details) ->
     status = 405 \/ status = 400 \/
     (status = 500 /\ exists call message,
         fst out = [call] /\ backend call = BackendThrows message /\
         details = Some message)).
Proof.
  cbv zeta. unfold resultsHandler.
  assert (Hrefused : forall (status : Z) (error : string),
             (status = 405 \/ status = 400) ->
             (status = 405 -> req_method req <> "GET") ->
             (status = 400 -> req_method req = "GET" /\
                              (req_jobId req = None \/ req_jobId req = Some "")) ->
             (status = 405 -> error = "Method not allowed") ->
             (status = 400 -> error = "Job ID is required") ->
             let out : list (BackendCall Json) * (Z * ProxyBody Json) :=
               ([], (status, ErrorBody error None)) in
             (List.length (fst out) <= 1)%nat /\
             (req_method req <> "GET" ->
              out = ([], (405, ErrorBody "Method not allowed" None))) /\
             (req_method req = "GET" -> (req_jobId req = None \/ req_jobId req = Some "") ->
              out = ([], (400, ErrorBody "Job ID is required" None))) /\
             (forall status' data, snd out = (status', DataBody data) ->
                exists jobId,
                  req_method req = "GET" /\ req_jobId req = Some jobId /\ jobId <> "" /\
                  let call := mkBackendCall (backendUrl env ++ "/api/results/" ++ jobId)%string
                                            "GET" None in
                  fst out = [call] /\ backend call = BackendAnswers status' data) /\
             (forall status' error' details, snd out = (status', ErrorBody error' details) ->
                status' = 405 \/ status' = 400 \/
                (status' = 500 /\ exists call message,
                    fst out = [call] /\ backend call = BackendThrows message /\
                    details = Some message))).
  { intros status error Hst H405 H400 He405 He400. cbv zeta. simpl.
    split; [lia|]. split; [|split; [|split]].
    - intros Hne. destruct Hst as [->| ->].
      + now rewrite He405.
      + destruct (H400 eq_refl) as [Hg _]. contradiction.
    - intros Hg Hj. destruct Hst as [->| ->].
      + exfalso. now apply H405.
      + now rewrite He400.
    - intros status' data H. discriminate H.
    - intros status' error' details H. injection H as <- _ _.
      destruct Hst; [now left | right; now left]. }
  destruct (String.eqb (req_method req) "GET") eqn:Hm; simpl.
  - apply String.eqb_eq in Hm.
    destruct (req_jobId req) as [jobId|] eqn:Hj.
    + destruct (String.eqb jobId "") eqn:He; simpl.
      * apply String.eqb_eq in He. subst jobId.
        apply (Hrefused 400 "Job ID is required"); auto; discriminate.
      * apply String.eqb_neq in He.
        destruct (backend _) as [st d|msg] eqn:Hb; simpl.
        -- split; [lia|]. split; [congruence|]. split.
           ++ intros _ [H|H]; congruence.
           ++ split; [|discriminate]. intros status data H. injection H as <- <-.
              exists jobId. repeat split; assumption.
        -- split; [lia|]. split; [congruence|]. split.
           ++ intros _ [H|H]; congruence.
           ++ split; [discriminate|]. intros status error details H.
              injection H as <- <- <-. right. right. split; [reflexivity|]. eauto.
    + apply (Hrefused 400 "Job ID is required"); auto; discriminate.
  - apply String.eqb_neq in Hm.
    apply (Hrefused 405 "Method not allowed"); auto; discriminate.
Qed.

Lemma results_proxy_forwards_or_refuses_witness :
  resultsHandler (Json := ResultsData) None (fun _ => BackendThrows "down")
    (mkProxyRequest "POST" None milkOnly)
  = ([], (405, ErrorBody "Method not allowed" None)).
Proof.
  destruct (results_proxy_forwards_or_refuses (Json := ResultsData) None
              (fun _ => BackendThrows "down") (mkProxyRequest "POST" None milkOnly))
    as (_ & H & _).
  apply H. discriminate.
Defined.

(** The clarify and cart proxies contact the backend at most once, and
    not at all for a method other than POST (answered 405).  An answer
    with a data body is always the answer of the backend to the POST of
    the request body, with its status and its data unchanged, whatever
    the status; an answer the proxy makes itself is an error object with
    status 405 or 500. *)
Theorem post_proxy_forwards_or_refuses {Json : Type} (path : string)
  (env : option string) (backend : BackendCall Json -> BackendOutcome Json)
  (req : ProxyRequest Json) :
  let out := postHandler path env backend req in
  let call := mkBackendCall (backendUrl env ++ path)%string "POST" (Some (req_body req)) in
  (List.length (fst out) <= 1)%nat /\
  (req_method req <> "POST" ->
   out = ([], (405, ErrorBody "Method not allowed" None))) /\
  (forall status data, snd out = (status, DataBody data) ->
     req_method req = "POST" /\ fst out = [call] /\
     backend call = BackendAnswers status data) /\
  (forall status error details, snd out = (status, ErrorBody error details) ->
     (status = 405 /\ fst out = []) \/
     (status = 500 /\ fst out = [call] /\
      exists message, backend call = BackendThrows message /\ details = Some message)).
Proof.
  cbv zeta. unfold postHandler.
  destruct (String.eqb (req_method req) "POST") eqn:Hm; simpl.
  - apply String.eqb_eq in Hm.
    destruct (backend _) as [st d|msg] eqn:Hb; simpl.
    + split; [lia|]. split; [congruence|]. split; [|discriminate].
      intros status data H. injection H as <- <-. repeat split; assumption.
    + split; [lia|]. split; [congruence|]. split; [discriminate|].
      intros status error details H. injection H as <- <- <-. right. eauto.
  - apply String.eqb_neq in Hm.
    split; [lia|]. split; [reflexivity|]. split; [discriminate|].
    intros status error details H. injection H as <- <- <-. now left.
Qed.

Lemma post_proxy_forwards_or_refuses_witness :
  postHandler "/api/cart" None (fun _ => BackendAnswers 200 (mkCartData "abc123"))
    (mkProxyRequest "GET" None (mkCartData ""))
  = ([], (405, ErrorBody "Method not allowed" None)).
Proof.
  destruct (post_proxy_forwards_or_refuses "/api/cart" None
              (fun _ => BackendAnswers 200 (mkCartData "abc123"))
              (mkProxyRequest "GET" None (mkCartData ""))) as (_ & H & _).
  apply H. discriminate.
Defined.

(** Through the proxies, the script goes on only on a 2xx answer of the
    backend itself.  A poll read from the results proxy carries data only
    when the backend answered the job's request with a 2xx status and that
    data; in every other case (refused request, backend unreachable or
    not answering JSON, status outside 200..299) the poll fails, the
    stored timer is cleared and step 2 is shown with the cart kept.
    Likewise a submission read from the cart proxy starts polling only on
    a 2xx answer of the backend and otherwise returns to step 2. *)
Theorem only_a_backend_success_gets_through
  (env : option string) (s : State) :
  (forall (backend : BackendCall ResultsData -> BackendOutcome ResultsData)
          (req : ProxyRequest ResultsData),
      let out := resultsHandler env backend req in
      (exists call status data,
          fst out = [call] /\ backend call = BackendAnswers status data /\
          responseOk status = true /\ readByPoll (snd out) = HttpOk data) \/
      (readByPoll (snd out) = HttpNotOk /\
       currentStep (pollResults_resume (readByPoll (snd out)) s) = 2 /\
       cart (pollResults_resume (readByPoll (snd out)) s) = cart s /\
       intervals (pollResults_resume (readByPoll (snd out)) s) =
         intervals (clearInterval (pollInterval s) s))) /\
  (forall (backend : BackendCall CartData -> BackendOutcome CartData)
          (req : ProxyRequest CartData),
      let out := postHandler "/api/cart" env backend req in
      (exists call status data,
          fst out = [call] /\ backend call = BackendAnswers status data /\
          responseOk status = true /\ readBySubmit (snd out) = HttpOk data /\
          jobId (submitCart_resume (readBySubmit (snd out)) s) = Some (job_id data)) \/
      (readBySubmit (snd out) = HttpNotOk /\
       submitCart_resume (readBySubmit (snd out)) s = submitCart_catch s /\
       currentStep (submitCart_resume (readBySubmit (snd out)) s) = 2 /\
       intervals (submitCart_resume (readBySubmit (snd out)) s) = intervals s)).
Proof.
  assert (Hnot : forall r, r = HttpNotOk ->
            currentStep (pollResults_resume r s) = 2 /\
            cart (pollResults_resume r s) = cart s /\
            intervals (pollResults_resume r s) =
              intervals (clearInterval (pollInterval s) s)).
  { intros r ->. rewrite intervals_pollResults_resume. simpl.
    destruct (clearInterval_frame (pollInterval s) s) as (Hc & _).
    rewrite Hc. repeat split. }
  split.
  - intros backend req. cbv zeta. unfold resultsHandler.
    destruct (negb _); [right; split; [reflexivity | now apply Hnot]|].
    destruct (req_jobId req) as [jobId|]; [|right; split; [reflexivity | now apply Hnot]].
    destruct (String.eqb jobId ""); [right; split; [reflexivity | now apply Hnot]|].
    destruct (backend _) as [st d|msg] eqn:Hb;
      [|right; split; [reflexivity | now apply Hnot]].
    unfold readByPoll. simpl. destruct (responseOk st) eqn:Hok.
    + left. eauto 10.
    + right. split; [reflexivity | now apply Hnot].
  - intros backend req. cbv zeta. unfold postHandler.
    destruct (negb _); [right; repeat split|].
    destruct (backend _) as [st d|msg] eqn:Hb; [|right; repeat split].
    unfold readBySubmit. simpl. destruct (responseOk st) eqn:Hok.
    + left. exists (mkBackendCall (backendUrl env ++ "/api/cart")%string "POST"
                      (Some (req_body req))), st, d.
      repeat split; assumption.
    + right. repeat split.
Qed.

Lemma debounce_holds_one_timeout_witness :
  timeoutId (runDebounce [Called "a"; Called "ab"; Called "abc"] (debounce 1)) = Some 3 /\
  last (calledArgs [Called "a"; Called "ab"; Called "abc"]) = Some "abc".
Proof.
  destruct (debounce_holds_one_timeout 1 [Called "a"; Called "ab"; Called "abc"])
    as (_ & H & _).
  apply (H 3 "abc"). now left.
Defined.

(** ** [displaySuggestions] *)

(** For an answer with a suggested name, [displaySuggestions] offers the
    names the card of a completed pending entry offers for the same
    answer, in the same order and with the same best-match mark, at most
    4, and hides the manual button.  Without a suggested name, or without
    an answer, it hides the area and shows the manual button, even when
    the answer has alternatives, which the card of a pending entry would
    still offer.  Its cards carry no pending id: a click on one removes no
    pending entry. *)
Theorem displaySuggestions_and_the_pending_card
  (data : SuggestionData) (p : PendingItem) (area : SuggestionsArea)
  (n : string) (s : State) :
  status p = Complete -> suggestions p = Some data ->
  (forall best,
      suggested data = Some best ->
      let shown := displaySuggestions (Some data) area in
      suggestionsDiv_hidden shown = false /\ addManualBtn_displayed shown = false /\
      (List.length (suggestionsContent_cards shown) <= 4)%nat /\
      exists cards,
        renderPendingCard p = SuggestionsCard (originalText p) cards /\
        List.map (fun c => (fst (fst c), snd (fst c))) cards = suggestionsContent_cards shown) /\
  (suggested data = None ->
   displaySuggestions (Some data) area = displaySuggestions None area /\
   suggestionsDiv_hidden (displaySuggestions (Some data) area) = true /\
   addManualBtn_displayed (displaySuggestions (Some data) area) = true /\
   renderPendingCard p =
     SuggestionsCard (originalText p)
       (List.map (fun alt => (alt, false, id p)) (firstn 3 (alternatives data)))) /\
  pendingSuggestions (suggestionCard_click n None s) = pendingSuggestions s.
Proof.
  intros Hst Hsu. split; [|split].
  - intros best Hbest. cbv zeta. unfold displaySuggestions, renderPendingCard.
    rewrite Hbest, Hst, Hsu. simpl.
    split; [reflexivity|]. split; [reflexivity|]. split.
    + rewrite List.length_map.
      pose proof (List.firstn_le_length 3 (alternatives data)). lia.
    + eexists. split; [reflexivity|]. rewrite Hbest. simpl.
      rewrite List.map_map. reflexivity.
  - intros Hnone. unfold displaySuggestions, renderPendingCard.
    rewrite Hnone, Hst, Hsu. repeat split. rewrite Hnone. reflexivity.
  - unfold suggestionCard_click. apply pendingSuggestions_addToCart.
Qed.

Lemma displaySuggestions_and_the_pending_card_witness :
  let d := mkSuggestionData None ["Skim Milk"] in
  suggestionsDiv_hidden (displaySuggestions (Some d) (mkSuggestionsArea false [] false)) = true /\
  renderPendingCard (mkPendingItem 1000 "milk" Complete (Some d)) =
    SuggestionsCard "milk" [("Skim Milk", false, 1000)].
Proof.
  intros d.
  destruct (displaySuggestions_and_the_pending_card d
              (mkPendingItem 1000 "milk" Complete (Some d))
              (mkSuggestionsArea false [] false) "x" init eq_refl eq_refl)
    as (_ & H & _).
  destruct (H eq_refl) as (_ & H1 & _ & H2). split; [exact H1 | exact H2].
Defined.
